(** * VideoGenerator.svelte: the input form controller

    A shallow embedding of the script block of
    [front_end/src/routes/VideoGenerator.svelte]: the component's variables,
    [validateDimensions], [handleSubmit] and [handleFileChange], together
    with the parts of the browser platform the handler talks to (the
    build-time environment, [FileReader], [fetch], [JSON]).

    [handleSubmit] is an [async] function.  It is modelled as the sequence
    of effects of one submission taken in isolation: the assignments to
    [loading], [error] and [result], the file read and the network call, in
    the order the handler performs them.  The form's inputs are taken not to
    change while the submission is in flight.

    Numbers.  The script declares [width], [height], [numFrames],
    [inferenceSteps] and [guidanceScale] as [number] (only [seed] is
    [number | null]), and binds them to [type="number"] inputs.  The first
    four have integer steps (32, 32, 8, 1) and are carried as integers,
    [guidanceScale] has step 0.1 and is carried as an exact rational.  On
    integers that binary64 represents, [%], [<] and [!==] are exact;
    [numFrames - 1] is not, and is modelled with its rounding ([binary64]):
    it is exact up to 2^53 and loses low bits above.  Values outside the
    declared type (the [null] an emptied input is bound to, which the
    inputs' [required] attribute keeps out of a submitted form) and
    non-integer values of the four integer inputs are not represented;
    statements that relate the script's checks to arithmetic on the
    parameters say for which values they hold. *)

From Stdlib Require Import ZArith QArith Bool List String Ascii Lia.
From Stdlib Require Import DecimalString.
Import ListNotations.
Local Open Scope string_scope.
Local Open Scope Z_scope.

(** ** JavaScript values *)

(** The JSON fragment of JavaScript values: what [JSON.parse] produces and
    what the request payload is made of.  An object is the list of its
    properties in insertion order. *)
#[warnings="-register-all"]
Inductive value : Type :=
| VNull
| VBool (b : bool)
| VNum (q : Q)
| VStr (s : string)
| VArr (items : list value)
| VObj (props : list (string * value)).

(** [o[k]] on an object's property list. *)
Fixpoint lookup (k : string) (props : list (string * value)) : option value :=
  match props with
  | [] => None
  | (k', v) :: rest => if String.eqb k k' then Some v else lookup k rest
  end.

(** [o[k] = v]: an existing property keeps its place, a new one goes last. *)
Fixpoint set_prop (k : string) (v : value) (props : list (string * value))
  : list (string * value) :=
  match props with
  | [] => [(k, v)]
  | (k', v') :: rest =>
      if String.eqb k k' then (k, v) :: rest else (k', v') :: set_prop k v rest
  end.

Definition has_key (k : string) (props : list (string * value)) : bool :=
  match lookup k props with Some _ => true | None => false end.

(** [x < y] on rationals, as a boolean. *)
Definition Qltb (x y : Q) : bool := negb (Qle_bool y x).

(** ToBoolean. *)
Definition truthy (v : value) : bool :=
  match v with
  | VNull => false
  | VBool b => b
  | VNum q => negb (Qeq_bool q 0)
  | VStr s => negb (String.eqb s "")
  | VArr _ | VObj _ => true
  end.

(** ** Exceptions *)

(** A thrown value: an [Error] object (of any subclass) with its message, or
    something that is not an [Error] (the [ProgressEvent] a failed
    [FileReader] rejects with). *)
Inductive Thrown : Type :=
| ErrorObj (message : string)
| NotAnError.

Inductive Completion (A : Type) : Type :=
| Normal (a : A)
| Throw (e : Thrown).
Arguments Normal {A} a.
Arguments Throw {A} e.

(** ** The component's variables *)

(** ['url' | 'file'] *)
Inductive InputMethod : Type := url | file.

(** A [File] the user picked, represented by its name and by what
    [FileReader.readAsDataURL] yields for it: the data URL delivered to
    [onload], or [None] when the read ends in [onerror]. *)
Record File : Type := mkFile {
  file_name : string;
  file_dataURL : option string
}.

Record Component : Type := mkComponent {
  prompt : string;
  imageUrl : string;
  imageFile : option File;
  seed : option Z;
  inferenceSteps : Z;
  guidanceScale : Q;
  width : Z;
  height : Z;
  numFrames : Z;
  loading : bool;
  result : value;
  error : option string;
  inputMethod : InputMethod
}.

(** The initial values of the script's [let] declarations. *)
Definition initial : Component :=
  {| prompt := ""; imageUrl := ""; imageFile := None; seed := None;
     inferenceSteps := 50; guidanceScale := 7.5%Q;
     width := 704; height := 480; numFrames := 161;
     loading := false; result := VNull; error := None;
     inputMethod := url |}.

(** ** validateDimensions *)

(** The binary64 number nearest to the integer [z], ties going to the even
    significand.  Integers of magnitude up to 2^53 are represented exactly;
    above, what does not fit the 53-bit significand is rounded away.  (No
    finite binary64 operand makes [numFrames - 1] overflow, so the model
    needs no infinity.) *)
Definition binary64 (z : Z) : Z :=
  let a := Z.abs z in
  if a <=? 2 ^ 53 then z
  else
    let s := Z.log2 a - 52 in
    let q := a / 2 ^ s in
    let r := a mod 2 ^ s in
    let half := 2 ^ (s - 1) in
    let m := if r <? half then q
             else if half <? r then q + 1
             else if Z.even q then q else q + 1 in
    Z.sgn z * (m * 2 ^ s).

(** [a - b] on numbers: the exact difference, rounded once. *)
Definition js_sub (a b : Z) : Z := binary64 (a - b).

(** [Number.isSafeInteger]: the integers of magnitude at most 2^53 - 1. *)
Definition safe_integer (n : Z) : Prop := Z.abs n <= 2 ^ 53 - 1.

Definition validateDimensions (c : Component) : Completion unit :=
  if negb (Z.rem (width c) 32 =? 0) || negb (Z.rem (height c) 32 =? 0) then
    Throw (ErrorObj "Width and height must be divisible by 32")
  else if negb (Z.rem (js_sub (numFrames c) 1) 8 =? 0) then
    Throw (ErrorObj "Number of frames must be divisible by 8 plus 1")
  else if inferenceSteps c <? 1 then
    Throw (ErrorObj "Inference steps must be positive")
  else if Qltb (guidanceScale c) 0 then
    Throw (ErrorObj "Guidance scale must be non-negative")
  else Normal tt.

Definition fails {A} (r : Completion A) : Prop := exists e, r = Throw e.

(** ** The platform *)

(** The second argument of [fetch]. *)
Record RequestInit : Type := mkRequestInit {
  method : string;
  body : string;
  headers : list (string * string)
}.

(** What the handler uses of a [Response]: the status, and the text its body
    stream delivers (or the error reading it ends in). *)
Record Response : Type := mkResponse {
  status : Z;
  body_text : Completion string
}.

Definition ok (r : Response) : bool := (200 <=? status r) && (status r <=? 299).

(** The surroundings of one submission: the build-time environment, the
    gateway behind [fetch], and the built-ins whose results the handler
    inspects.  [JSON_parse] throws a [SyntaxError] on text that is not
    JSON; [fetch] rejects when no response arrives; [TypeError_to_primitive]
    is the message of the [TypeError] the engine throws for an object that
    has no primitive value. *)
Record Platform : Type := mkPlatform {
  VITE_BACKEND_URL : option string;
  fetch : string -> RequestInit -> Completion Response;
  JSON_parse : string -> Completion value;
  JSON_stringify : value -> string;
  Number_toString : Q -> string;
  TypeError_to_primitive : string
}.

(** What the handler does to the outside, in order: assignments to the
    component's variables the template displays, the file read and the
    network call.  Console output is left out. *)
Inductive Effect : Type :=
| SetLoading (b : bool)
| SetError (e : option string)
| SetResult (v : value)
| ReadAsDataURL (f : File)
| Fetch (u : string) (init : RequestInit).

(** ** Sequencing with effects and exceptions *)

Definition M (A : Type) : Type := (list Effect * Completion A)%type.

Definition ret {A} (a : A) : M A := ([], Normal a).
Definition throw {A} (e : Thrown) : M A := ([], Throw e).
Definition emit (ef : Effect) : M unit := ([ef], Normal tt).
Definition lift {A} (r : Completion A) : M A := ([], r).

Definition bind {A B} (m : M A) (k : A -> M B) : M B :=
  match m with
  | (t, Normal a) => let (t', r) := k a in ((t ++ t')%list, r)
  | (t, Throw e) => (t, Throw e)
  end.

(** [try { m } catch (e) { h e }] *)
Definition try_catch {A} (m : M A) (h : Thrown -> M A) : M A :=
  match m with
  | (t, Throw e) => let (t', r) := h e in ((t ++ t')%list, r)
  | (t, Normal a) => (t, Normal a)
  end.

(** [try { m } finally { fin }] *)
Definition try_finally {A} (m : M A) (fin : M unit) : M A :=
  match m, fin with
  | (t, r), (t', Normal _) => ((t ++ t')%list, r)
  | (t, _), (t', Throw e) => ((t ++ t')%list, Throw e)
  end.

Notation "x <- m ;; k" := (bind m (fun x => k))
  (at level 61, m at next level, right associativity).
Notation "m ;; k" := (bind m (fun _ => k))
  (at level 61, right associativity).

(** ** Built-in conversions *)

Definition join (sep : string) (parts : list string) : string :=
  match parts with
  | [] => ""
  | p :: rest => fold_left (fun acc x => acc ++ sep ++ x) rest p
  end.

(** ToString, as [new Error(message)] applies it to its argument.  An
    array is its elements joined by commas, [null] elements giving the
    empty string.  An object goes through [toString] then [valueOf]: a
    parsed object that has its own [toString] property hides
    [Object.prototype.toString] behind a value that cannot be called, and
    [valueOf] yields no primitive, so the conversion throws a [TypeError];
    any other object is ["[object Object]"]. *)
Fixpoint ToString (P : Platform) (v : value) : Completion string :=
  match v with
  | VNull => Normal "null"
  | VBool true => Normal "true"
  | VBool false => Normal "false"
  | VNum q => Normal (Number_toString P q)
  | VStr s => Normal s
  | VArr items =>
      match
        (fix each (l : list value) : Completion (list string) :=
           match l with
           | [] => Normal []
           | x :: rest =>
               match match x with
                     | VNull => Normal ""
                     | _ => ToString P x
                     end with
               | Throw e => Throw e
               | Normal str =>
                   match each rest with
                   | Throw e => Throw e
                   | Normal strs => Normal (str :: strs)
                   end
               end
           end) items
      with
      | Throw e => Throw e
      | Normal strs => Normal (join "," strs)
      end
  | VObj props =>
      if has_key "toString" props
      then Throw (ErrorObj (TypeError_to_primitive P))
      else Normal "[object Object]"
  end.

(** [v.k] for a property name [k] that no prototype defines: [undefined]
    ([None]) unless [v] is an object that has it, a [TypeError] on [null]. *)
Definition get_member (v : value) (k : string) : Completion (option value) :=
  match v with
  | VNull => Throw (ErrorObj "Cannot read properties of null")
  | VObj props => Normal (lookup k props)
  | _ => Normal None
  end.

(** [a || b] where [a] may be [undefined]. *)
Definition or_else (a : option value) (b : value) : value :=
  match a with
  | Some v => if truthy v then v else b
  | None => b
  end.

(** ** handleSubmit *)

(** [e instanceof Error ? e.message : 'An unknown error occurred'] *)
Definition message_of (e : Thrown) : string :=
  match e with
  | ErrorObj message => message
  | NotAnError => "An unknown error occurred"
  end.

Definition not_configured : string :=
  "Backend URL is not configured. Please check your environment variables.".

Definition json_headers : list (string * string) :=
  [("Accept", "application/json"); ("Content-Type", "application/json")].

Definition handleSubmit (P : Platform) (c : Component) : M unit :=
  emit (SetLoading true) ;;
  emit (SetError None) ;;
  try_finally
    (try_catch
       (lift (validateDimensions c) ;;
        backendUrl <-
          match VITE_BACKEND_URL P with
          | Some u =>
              if String.eqb u "" then throw (ErrorObj not_configured)
              else ret u
          | None => throw (ErrorObj not_configured)
          end ;;
        let payload :=
          [("prompt", VStr (prompt c));
           ("inference_steps", VNum (inject_Z (inferenceSteps c)));
           ("guidance_scale", VNum (guidanceScale c));
           ("width", VNum (inject_Z (width c)));
           ("height", VNum (inject_Z (height c)));
           ("num_frames", VNum (inject_Z (numFrames c)))] in
        payload <-
          match inputMethod c with
          | url => ret (set_prop "image_url" (VStr (imageUrl c)) payload)
          | file =>
              match imageFile c with
              | Some f =>
                  emit (ReadAsDataURL f) ;;
                  base64Data <-
                    match file_dataURL f with
                    | Some d => ret (VStr d)
                    | None => throw NotAnError
                    end ;;
                  ret (set_prop "image_base64" base64Data payload)
              | None => ret payload
              end
          end ;;
        let payload :=
          match seed c with
          | Some s => set_prop "seed" (VNum (inject_Z s)) payload
          | None => payload
          end in
        let u := backendUrl ++ "/generate-video" in
        let init := {| method := "POST";
                       body := JSON_stringify P (VObj payload);
                       headers := json_headers |} in
        emit (Fetch u init) ;;
        response <- lift (fetch P u init) ;;
        if negb (ok response) then
          errorText <- lift (body_text response) ;;
          let errorMessage := VStr "Failed to generate video" in
          errorMessage <-
            try_catch
              (errorJson <- lift (JSON_parse P errorText) ;;
               detail <- lift (get_member errorJson "detail") ;;
               ret (or_else detail errorMessage))
              (fun _ => ret (VStr errorText)) ;;
          message <- lift (ToString P errorMessage) ;;
          throw (ErrorObj message)
        else
          text <- lift (body_text response) ;;
          r <- lift (JSON_parse P text) ;;
          emit (SetResult r))
       (fun e => emit (SetError (Some (message_of e)))))
    (emit (SetLoading false)).

(** [handleFileChange]: the first chosen file, if any, becomes [imageFile]. *)
Definition handleFileChange (files : list File) (c : Component) : Component :=
  match files with
  | f :: _ =>
      mkComponent (prompt c) (imageUrl c) (Some f) (seed c)
        (inferenceSteps c) (guidanceScale c) (width c) (height c)
        (numFrames c) (loading c) (result c) (error c) (inputMethod c)
  | [] => c
  end.

(** The user's edits of the bound inputs ([bind:value], [bind:group]). *)
Definition edit_text (p u : string) (c : Component) : Component :=
  mkComponent p u (imageFile c) (seed c)
    (inferenceSteps c) (guidanceScale c) (width c) (height c)
    (numFrames c) (loading c) (result c) (error c) (inputMethod c).

Definition edit_seed (s : option Z) (c : Component) : Component :=
  mkComponent (prompt c) (imageUrl c) (imageFile c) s
    (inferenceSteps c) (guidanceScale c) (width c) (height c)
    (numFrames c) (loading c) (result c) (error c) (inputMethod c).

Definition edit_inferenceSteps (n : Z) (c : Component) : Component :=
  mkComponent (prompt c) (imageUrl c) (imageFile c) (seed c)
    n (guidanceScale c) (width c) (height c)
    (numFrames c) (loading c) (result c) (error c) (inputMethod c).

Definition edit_guidanceScale (g : Q) (c : Component) : Component :=
  mkComponent (prompt c) (imageUrl c) (imageFile c) (seed c)
    (inferenceSteps c) g (width c) (height c)
    (numFrames c) (loading c) (result c) (error c) (inputMethod c).

Definition edit_size (w h n : Z) (c : Component) : Component :=
  mkComponent (prompt c) (imageUrl c) (imageFile c) (seed c)
    (inferenceSteps c) (guidanceScale c) w h
    n (loading c) (result c) (error c) (inputMethod c).

Definition edit_inputMethod (m : InputMethod) (c : Component) : Component :=
  mkComponent (prompt c) (imageUrl c) (imageFile c) (seed c)
    (inferenceSteps c) (guidanceScale c) (width c) (height c)
    (numFrames c) (loading c) (result c) (error c) m.

(** The component after an effect, and after a trace of them. *)
Definition apply (ef : Effect) (c : Component) : Component :=
  match ef with
  | SetLoading b =>
      mkComponent (prompt c) (imageUrl c) (imageFile c) (seed c)
        (inferenceSteps c) (guidanceScale c) (width c) (height c)
        (numFrames c) b (result c) (error c) (inputMethod c)
  | SetError e =>
      mkComponent (prompt c) (imageUrl c) (imageFile c) (seed c)
        (inferenceSteps c) (guidanceScale c) (width c) (height c)
        (numFrames c) (loading c) (result c) e (inputMethod c)
  | SetResult v =>
      mkComponent (prompt c) (imageUrl c) (imageFile c) (seed c)
        (inferenceSteps c) (guidanceScale c) (width c) (height c)
        (numFrames c) (loading c) v (error c) (inputMethod c)
  | ReadAsDataURL _ | Fetch _ _ => c
  end.

Definition run (t : list Effect) (c : Component) : Component :=
  fold_left (fun c ef => apply ef c) t c.

Definition trace (P : Platform) (c : Component) : list Effect :=
  fst (handleSubmit P c).

(** The component once the submission has settled. *)
Definition settled (P : Platform) (c : Component) : Component :=
  run (trace P c) c.

Definition is_fetch (ef : Effect) : bool :=
  match ef with Fetch _ _ => true | _ => false end.

(** The network calls of a trace. *)
Definition network_calls (t : list Effect) : list Effect := filter is_fetch t.

(** ** A reference platform

    An executable [JSON.parse] / [JSON.stringify] on ASCII text, used to run
    the handler on concrete gateway responses.  Numbers are exact and
    printed in plain decimal notation; a [\u] escape is stored as the UTF-8
    bytes of its code unit. *)
Module JSON.

Definition quote : ascii := "034"%char.
Definition backslash : ascii := "092"%char.

Definition code (a : ascii) : Z := Z.of_N (N_of_ascii a).
Definition chr (z : Z) : ascii := ascii_of_N (Z.to_N z).

Definition is_ws (a : ascii) : bool :=
  ((code a =? 32) || (code a =? 9) || (code a =? 10) || (code a =? 13))%Z.

Fixpoint skip_ws (s : list ascii) : list ascii :=
  match s with
  | a :: r => if is_ws a then skip_ws r else s
  | [] => []
  end.

Definition digit (a : ascii) : option Z :=
  if (48 <=? code a) && (code a <=? 57) then Some (code a - 48) else None.

Definition hex_digit (a : ascii) : option Z :=
  if (48 <=? code a) && (code a <=? 57) then Some (code a - 48)
  else if (65 <=? code a) && (code a <=? 70) then Some (code a - 55)
  else if (97 <=? code a) && (code a <=? 102) then Some (code a - 87)
  else None.

(** The longest run of digits at the head of [s]: its value, its length and
    what follows. *)
Fixpoint digits (s : list ascii) (acc : Z) (n : Z) : Z * Z * list ascii :=
  match s with
  | a :: r =>
      match digit a with
      | Some d => digits r (10 * acc + d) (n + 1)
      | None => (acc, n, s)
      end
  | [] => (acc, n, s)
  end.

(** The UTF-8 bytes of a code unit. *)
Definition utf8 (u : Z) : list ascii :=
  if u <? 128 then [chr u]
  else if u <? 2048 then [chr (192 + u / 64); chr (128 + u mod 64)]
  else [chr (224 + u / 4096); chr (128 + (u / 64) mod 64);
        chr (128 + u mod 64)].

(** The characters of a string literal after its opening quote. *)
Fixpoint string_body (s : list ascii) (acc : list ascii)
  : option (string * list ascii) :=
  match s with
  | [] => None
  | a :: r =>
      if Ascii.eqb a quote then Some (string_of_list_ascii (rev acc), r)
      else if code a <? 32 then None
      else if Ascii.eqb a backslash then
        match r with
        | "u"%char :: h1 :: h2 :: h3 :: h4 :: r' =>
            match hex_digit h1, hex_digit h2, hex_digit h3, hex_digit h4 with
            | Some d1, Some d2, Some d3, Some d4 =>
                string_body r'
                  (rev (utf8 (4096 * d1 + 256 * d2 + 16 * d3 + d4)) ++ acc)
            | _, _, _, _ => None
            end
        | e :: r' =>
            if Ascii.eqb e quote || Ascii.eqb e backslash
               || Ascii.eqb e "/"%char
            then string_body r' (e :: acc)
            else if Ascii.eqb e "b"%char then string_body r' (chr 8 :: acc)
            else if Ascii.eqb e "f"%char then string_body r' (chr 12 :: acc)
            else if Ascii.eqb e "n"%char then string_body r' (chr 10 :: acc)
            else if Ascii.eqb e "r"%char then string_body r' (chr 13 :: acc)
            else if Ascii.eqb e "t"%char then string_body r' (chr 9 :: acc)
            else None
        | [] => None
        end
      else string_body r (a :: acc)
  end.

(** [-? int frac? exp?], with no leading zero in [int]. *)
Definition number (s : list ascii) : option (Q * list ascii) :=
  let (neg, s1) := match s with
                   | "-"%char :: r => (true, r)
                   | _ => (false, s)
                   end in
  let '(i, ni, s2) := digits s1 0 0 in
  let leading_zero := match s1 with "0"%char :: _ => 1 <? ni | _ => false end in
  if (ni =? 0)%Z || leading_zero then None else
  let frac := match s2 with
              | "."%char :: r => let '(f, nf, s3) := digits r 0 0 in
                            if (nf =? 0)%Z then None else Some (f, nf, s3)
              | _ => Some (0, 0, s2)
              end in
  match frac with
  | None => None
  | Some (f, nf, s3) =>
      let exp := match s3 with
                 | e :: r =>
                     if Ascii.eqb e "e"%char || Ascii.eqb e "E"%char then
                       let (eneg, r1) := match r with
                                         | "-"%char :: r' => (true, r')
                                         | "+"%char :: r' => (false, r')
                                         | _ => (false, r)
                                         end in
                       let '(x, nx, s4) := digits r1 0 0 in
                       if (nx =? 0)%Z then None
                       else Some (if eneg then - x else x, s4)
                     else Some (0, s3)
                 | [] => Some (0, s3)
                 end in
      match exp with
      | None => None
      | Some (x, s4) =>
          let m := i * 10 ^ nf + f in
          let m := if neg then - m else m in
          let q := if 0 <=? x - nf
                   then inject_Z (m * 10 ^ (x - nf))
                   else Qmake m (Z.to_pos (10 ^ (nf - x))) in
          Some (Qred q, s4)
      end
  end.

Fixpoint strip (word s : list ascii) : option (list ascii) :=
  match word, s with
  | [], _ => Some s
  | w :: word', a :: r => if Ascii.eqb w a then strip word' r else None
  | _ :: _, [] => None
  end.

Fixpoint parse_value (fuel : nat) (s : list ascii)
  : option (value * list ascii) :=
  match fuel with
  | O => None
  | S fuel' =>
      match skip_ws s with
      | [] => None
      | "{"%char :: r =>
          match skip_ws r with
          | "}"%char :: r' => Some (VObj [], r')
          | _ => parse_members fuel' r []
          end
      | "["%char :: r =>
          match skip_ws r with
          | "]"%char :: r' => Some (VArr [], r')
          | _ => parse_elements fuel' r []
          end
      | "t"%char :: r =>
          option_map (pair (VBool true)) (strip (list_ascii_of_string "rue") r)
      | "f"%char :: r =>
          option_map (pair (VBool false))
            (strip (list_ascii_of_string "alse") r)
      | "n"%char :: r =>
          option_map (pair VNull) (strip (list_ascii_of_string "ull") r)
      | a :: r =>
          if Ascii.eqb a quote then
            match string_body r [] with
            | Some (str, r') => Some (VStr str, r')
            | None => None
            end
          else
            match number (a :: r) with
            | Some (q, r') => Some (VNum q, r')
            | None => None
            end
      end
  end
with parse_elements (fuel : nat) (s : list ascii) (acc : list value)
  : option (value * list ascii) :=
  match fuel with
  | O => None
  | S fuel' =>
      match parse_value fuel' s with
      | Some (v, r) =>
          match skip_ws r with
          | ","%char :: r' => parse_elements fuel' r' (acc ++ [v])
          | "]"%char :: r' => Some (VArr (acc ++ [v]), r')
          | _ => None
          end
      | None => None
      end
  end
with parse_members (fuel : nat) (s : list ascii) (acc : list (string * value))
  : option (value * list ascii) :=
  match fuel with
  | O => None
  | S fuel' =>
      match skip_ws s with
      | a :: r =>
          if Ascii.eqb a quote then
            match string_body r [] with
            | Some (k, r1) =>
                match skip_ws r1 with
                | ":"%char :: r2 =>
                    match parse_value fuel' r2 with
                    | Some (v, r3) =>
                        match skip_ws r3 with
                        | ","%char :: r4 =>
                            parse_members fuel' r4 (set_prop k v acc)
                        | "}"%char :: r4 => Some (VObj (set_prop k v acc), r4)
                        | _ => None
                        end
                    | None => None
                    end
                | _ => None
                end
            | None => None
            end
          else None
      | [] => None
      end
  end.

Definition parse (text : string) : Completion value :=
  let s := list_ascii_of_string text in
  match parse_value (2 * List.length s + 2) s with
  | Some (v, r) =>
      match skip_ws r with
      | [] => Normal v
      | _ :: _ =>
          Throw (ErrorObj "Unexpected non-whitespace character after JSON")
      end
  | None => Throw (ErrorObj "Unexpected token in JSON")
  end.

Definition Z_to_string (z : Z) : string :=
  NilZero.string_of_int (Z.to_int z).

(** The decimal digits of [r / d] after the point, for [0 <= r < d]. *)
Fixpoint fraction (fuel : nat) (r d : Z) : string :=
  match fuel with
  | O => ""
  | S fuel' =>
      if r =? 0 then ""
      else String (chr (48 + 10 * r / d)) (fraction fuel' ((10 * r) mod d) d)
  end.

(** Number::toString for numbers with a short decimal expansion; longer
    expansions are cut after 17 fractional digits. *)
Definition number_to_string (q : Q) : string :=
  let n := Qnum (Qred q) in
  let d := Zpos (Qden (Qred q)) in
  let a := Z.abs n in
  (if n <? 0 then "-" else "") ++ Z_to_string (a / d) ++
  (if a mod d =? 0 then "" else "." ++ fraction 17 (a mod d) d).

Definition hex (d : Z) : ascii :=
  if d <? 10 then chr (48 + d) else chr (87 + d).

Fixpoint escape (s : string) : string :=
  match s with
  | EmptyString => ""
  | String a r =>
      (if Ascii.eqb a quote then String backslash (String quote "")
       else if Ascii.eqb a backslash then String backslash (String backslash "")
       else if code a =? 8 then "\b"
       else if code a =? 12 then "\f"
       else if code a =? 10 then "\n"
       else if code a =? 13 then "\r"
       else if code a =? 9 then "\t"
       else if code a <? 32 then
         "\u00" ++ String (hex (code a / 16)) (String (hex (code a mod 16)) "")
       else String a "") ++ escape r
  end.

Definition quoted (s : string) : string :=
  String quote (escape s ++ String quote "").

Fixpoint stringify (v : value) : string :=
  match v with
  | VNull => "null"
  | VBool true => "true"
  | VBool false => "false"
  | VNum q => number_to_string q
  | VStr s => quoted s
  | VArr items => "[" ++ join "," (map stringify items) ++ "]"
  | VObj props =>
      "{" ++ join "," (map (fun kv : string * value =>
                              let (k, x) := kv in
                              quoted k ++ ":" ++ stringify x) props)
          ++ "}"
  end.

End JSON.

(** A browser whose build was given [backendUrl] and whose network reaches
    [gateway]. *)
Definition browser (backendUrl : option string)
    (gateway : string -> RequestInit -> Completion Response) : Platform :=
  {| VITE_BACKEND_URL := backendUrl;
     fetch := gateway;
     JSON_parse := JSON.parse;
     JSON_stringify := JSON.stringify;
     Number_toString := JSON.number_to_string;
     TypeError_to_primitive := "Cannot convert object to primitive value" |}.

(** A gateway that answers every request with the same status and body. *)
Definition answering (st : Z) (text : string)
  : string -> RequestInit -> Completion Response :=
  fun _ _ => Normal {| status := st; body_text := Normal text |}.

(** A network on which no request gets through. *)
Definition unreachable : string -> RequestInit -> Completion Response :=
  fun _ _ => Throw (ErrorObj "Failed to fetch").

(** [!backendUrl]: the build was given no backend URL, or an empty one. *)
Definition backend_missing (P : Platform) : Prop :=
  VITE_BACKEND_URL P = None \/ VITE_BACKEND_URL P = Some "".

(** Sample response bodies: [{"detail":"oom"}] and
    [{"video_url":"/v/1.mp4"}]. *)
Definition dq : string := String JSON.quote "".

Definition oom_body : string :=
  "{" ++ dq ++ "detail" ++ dq ++ ":" ++ dq ++ "oom" ++ dq ++ "}".

Definition video_body : string :=
  "{" ++ dq ++ "video_url" ++ dq ++ ":" ++ dq ++ "/v/1.mp4" ++ dq ++ "}".

Definition gateway_url : string := "https://gateway.example/backend".

(** The form filled in as in the sample request: the defaults, with a
    prompt and an image URL. *)
Definition sample : Component := edit_text "a cat" "http://x/y.jpg" initial.

(** *** The request, as the specification describes it

    The payload is the six validated parameters, then the image source the
    input method selects, then the seed when there is one. *)
Definition image_part (c : Component) : list (string * value) :=
  match inputMethod c with
  | url => [("image_url", VStr (imageUrl c))]
  | file =>
      match imageFile c with
      | Some f =>
          match file_dataURL f with
          | Some d => [("image_base64", VStr d)]
          | None => []
          end
      | None => []
      end
  end.

Definition seed_part (c : Component) : list (string * value) :=
  match seed c with
  | Some s => [("seed", VNum (inject_Z s))]
  | None => []
  end.

Definition spec_payload (c : Component) : list (string * value) :=
  ([("prompt", VStr (prompt c));
    ("inference_steps", VNum (inject_Z (inferenceSteps c)));
    ("guidance_scale", VNum (guidanceScale c));
    ("width", VNum (inject_Z (width c)));
    ("height", VNum (inject_Z (height c)));
    ("num_frames", VNum (inject_Z (numFrames c)))]
   ++ image_part c ++ seed_part c)%list.

Definition endpoint (u : string) : string := u ++ "/generate-video".

Definition request_init (P : Platform) (c : Component) : RequestInit :=
  {| method := "POST";
     body := JSON_stringify P (VObj (spec_payload c));
     headers := json_headers |}.

(** The chosen file, when the input method needs one, can be read. *)
Definition readable (c : Component) : Prop :=
  match inputMethod c, imageFile c with
  | file, Some f => file_dataURL f <> None
  | _, _ => True
  end.

(** Nothing stops the submission before the network: the parameters are
    valid, the build has the non-empty backend URL [u], and the file read,
    if any, succeeds. *)
Definition ready (P : Platform) (c : Component) (u : string) : Prop :=
  validateDimensions c = Normal tt /\
  VITE_BACKEND_URL P = Some u /\
  u <> "" /\
  readable c.

(** *** The message for an error response, case by case *)
Definition detail_of (v : value) : option value :=
  match v with
  | VObj props => lookup "detail" props
  | _ => None
  end.

(** The message of a [new Error(d)] that is thrown and caught: [d] as a
    string, or the message of the error its conversion throws. *)
Definition message_from (P : Platform) (d : value) : string :=
  match ToString P d with
  | Normal str => str
  | Throw e => message_of e
  end.

Definition displayed_message (P : Platform) (text : string) : string :=
  match JSON_parse P text with
  | Throw _ => text
  | Normal VNull => text
  | Normal v =>
      match detail_of v with
      | Some d =>
          if truthy d then message_from P d else "Failed to generate video"
      | None => "Failed to generate video"
      end
  end.

(** The trace of a submission the handler refuses before any I/O. *)
Definition early_exit (msg : string) : list Effect :=
  [SetLoading true; SetError None; SetError (Some msg); SetLoading false].

(** File reads and network calls: the effects that touch no variable. *)
Definition is_io (ef : Effect) : bool :=
  match ef with
  | ReadAsDataURL _ | Fetch _ _ => true
  | _ => false
  end.

(** What follows the two opening assignments in a well-formed trace: I/O
    only, then one assignment of either an error message or a result, then
    [loading = false]. *)
Fixpoint settles (t : list Effect) : bool :=
  match t with
  | [] => false
  | ef :: rest =>
      match ef, rest with
      | SetError (Some _), [SetLoading false] => true
      | SetResult _, [SetLoading false] => true
      | _, _ => is_io ef && settles rest
      end
  end.

Definition sets_loading (ef : Effect) : bool :=
  match ef with SetLoading _ => true | _ => false end.

Definition sets_result (ef : Effect) : bool :=
  match ef with SetResult _ => true | _ => false end.

(** ** The rest of the component

    What the claims above do not need: the order of I/O in a submission, the
    template's blocks and input constraints, and the user's actions. *)

(** The file read a submission performs before the request, if any. *)
Definition file_reads (c : Component) : list Effect :=
  match inputMethod c, imageFile c with
  | file, Some f => [ReadAsDataURL f]
  | _, _ => []
  end.

Definition is_read (ef : Effect) : bool :=
  match ef with ReadAsDataURL _ => true | _ => false end.

(** The variables the form's inputs are bound to. *)
Definition same_inputs (c1 c2 : Component) : Prop :=
  prompt c1 = prompt c2 /\ imageUrl c1 = imageUrl c2 /\
  imageFile c1 = imageFile c2 /\ seed c1 = seed c2 /\
  inferenceSteps c1 = inferenceSteps c2 /\
  guidanceScale c1 = guidanceScale c2 /\
  width c1 = width c2 /\ height c1 = height c2 /\
  numFrames c1 = numFrames c2 /\ inputMethod c1 = inputMethod c2.

(** *** The template below the form

    The submit button ([disabled={loading}] and its label), the
    [{#if error}] block and the [{#if result}] block.  The result block
    shows the indented JSON text of the value it carries. *)
Record View : Type := mkView {
  button_disabled : bool;
  button_label : string;
  error_block : option string;
  result_block : option value
}.

Definition render (c : Component) : View :=
  {| button_disabled := loading c;
     button_label := if loading c then "Generating..." else "Generate Video";
     error_block :=
       match error c with
       | Some m => if String.eqb m "" then None else Some m
       | None => None
       end;
     result_block := if truthy (result c) then Some (result c) else None |}.

(** *** The constraints the numeric inputs declare

    [min], [max] and [step] of a [type="number"] input: the value is in
    range and is [min] plus a whole number of steps. *)
Definition within (min max step v : Z) : bool :=
  (min <=? v) && (v <=? max) && ((v - min) mod step =? 0).

Definition within_Q (min max step v : Q) : bool :=
  Qle_bool min v && Qle_bool v max &&
  (Zpos (Qden (Qred ((v - min) / step))) =? 1).

(** [inferenceSteps]: min 1, max 100; [guidanceScale]: min 0, max 20, step
    0.1; [width]: min 32, max 1280, step 32; [height]: min 32, max 720,
    step 32; [numFrames]: min 9, max 257, step 8. *)
Definition inputs_valid (c : Component) : bool :=
  within 1 100 1 (inferenceSteps c) &&
  within_Q 0 20 (1 # 10) (guidanceScale c) &&
  within 32 1280 32 (width c) &&
  within 32 720 32 (height c) &&
  within 9 257 8 (numFrames c).

(** *** The user's actions

    One edit of a bound input, one choice in the file dialog, or one
    submission run to its end on the platform it meets. *)
Inductive Action : Type :=
| Type_prompt (s : string)
| Type_imageUrl (s : string)
| Type_seed (s : option Z)
| Type_inferenceSteps (n : Z)
| Type_guidanceScale (g : Q)
| Type_width (n : Z)
| Type_height (n : Z)
| Type_numFrames (n : Z)
| Pick_inputMethod (m : InputMethod)
| Choose_files (files : list File)
| Submit (P : Platform).

Definition act (a : Action) (c : Component) : Component :=
  match a with
  | Type_prompt s => edit_text s (imageUrl c) c
  | Type_imageUrl s => edit_text (prompt c) s c
  | Type_seed s => edit_seed s c
  | Type_inferenceSteps n => edit_inferenceSteps n c
  | Type_guidanceScale g => edit_guidanceScale g c
  | Type_width n => edit_size n (height c) (numFrames c) c
  | Type_height n => edit_size (width c) n (numFrames c) c
  | Type_numFrames n => edit_size (width c) (height c) n c
  | Pick_inputMethod m => edit_inputMethod m c
  | Choose_files files => handleFileChange files c
  | Submit P => settled P c
  end.

Definition session (actions : list Action) (c : Component) : Component :=
  fold_left (fun c a => act a c) actions c.

Definition is_submit (a : Action) : bool :=
  match a with Submit _ => true | _ => false end.

(** The file the latest non-empty choice put first, or [start] when there
    was none. *)
Definition last_choice (actions : list Action) (start : option File)
  : option File :=
  fold_left (fun acc a => match a with
                          | Choose_files (f :: _) => Some f
                          | _ => acc
                          end) actions start.

(** * Properties *)

Local Open Scope list_scope.

(** ** Validation *)

Lemma rem_zero_divide (a b : Z) :
  b <> 0 -> (Z.rem a b =? 0) = true <-> (b | a).
Proof.
  intros Hb. rewrite Z.eqb_eq. now apply Z.rem_divide.
Qed.

Lemma divides_dec (b a : Z) : b <> 0 -> (b | a) \/ ~ (b | a).
Proof.
  intros Hb. destruct (Z.rem a b =? 0) eqn:E.
  - left. now apply rem_zero_divide.
  - right. intros H. apply rem_zero_divide in H; congruence.
Qed.

Lemma Qltb_lt (x y : Q) : Qltb x y = true <-> (x < y)%Q.
Proof.
  unfold Qltb. rewrite negb_true_iff. split.
  - intros H. apply Qnot_le_lt. intros Hle.
    apply Qle_bool_iff in Hle. congruence.
  - intros H. destruct (Qle_bool y x) eqn:E; [|reflexivity].
    apply Qle_bool_iff in E. exfalso. now apply (Qlt_not_le x y).
Qed.

(** *** Rounding *)

Lemma binary64_exact (z : Z) : Z.abs z <= 2 ^ 53 -> binary64 z = z.
Proof.
  intros H. unfold binary64.
  destruct (Z.leb_spec (Z.abs z) (2 ^ 53)); [reflexivity | lia].
Qed.

(** Rounding never takes a multiple of 8 to something else: below 2^55 a
    multiple of 8 is represented exactly, and above every binary64 integer
    is one. *)
Lemma binary64_divide_8 (z : Z) : (8 | z) -> (8 | binary64 z).
Proof.
  intros Hz. unfold binary64.
  destruct (Z.leb_spec (Z.abs z) (2 ^ 53)) as [|Hbig]; [exact Hz|].
  cbv zeta.
  set (a := Z.abs z) in *. set (s := Z.log2 a - 52).
  assert (53 <= Z.log2 a) as Hlog.
  { rewrite <- (Z.log2_pow2 53) by lia. apply Z.log2_le_mono. lia. }
  assert (1 <= s) as Hs by (unfold s; lia).
  destruct (Z_lt_le_dec s 3) as [Hsmall | Hlarge].
  - assert (8 | a) as Ha by (unfold a; now apply Z.divide_abs_r).
    assert (2 ^ s | a) as Hdiv.
    { destruct Ha as [k Hk].
      assert (s = 1 \/ s = 2) as [-> | ->] by lia.
      - exists (4 * k). lia.
      - exists (2 * k). lia. }
    assert (0 < 2 ^ s) as Hpos by (apply Z.pow_pos_nonneg; lia).
    assert (a mod 2 ^ s = 0) as Hr
      by (apply Z.mod_divide; [lia | exact Hdiv]).
    assert (0 < 2 ^ (s - 1)) as Hhalf by (apply Z.pow_pos_nonneg; lia).
    rewrite Hr.
    destruct (Z.ltb_spec 0 (2 ^ (s - 1))); [|lia].
    assert (a / 2 ^ s * 2 ^ s = a) as ->.
    { destruct Hdiv as [k Hk]. rewrite Hk, Z.div_mul by lia. reflexivity. }
    unfold a. rewrite Z.mul_comm.
    replace (Z.abs z * Z.sgn z) with z by (symmetry; apply Z.abs_sgn).
    exact Hz.
  - assert (2 ^ s = 8 * 2 ^ (s - 3)) as ->.
    { replace s with (3 + (s - 3)) at 1 by lia.
      rewrite Z.pow_add_r by lia. reflexivity. }
    match goal with
    | |- (8 | Z.sgn z * (?m * _)) => exists (Z.sgn z * m * 2 ^ (s - 3))
    end.
    lia.
Qed.

Lemma js_sub_exact (n : Z) : safe_integer n -> js_sub n 1 = n - 1.
Proof.
  unfold safe_integer, js_sub. intros H. apply binary64_exact. lia.
Qed.

Lemma js_sub_divide_8 (n : Z) : (8 | n - 1) -> (8 | js_sub n 1).
Proof. apply binary64_divide_8. Qed.

(** *** The checks *)

Lemma validateDimensions_Normal (c : Component) :
  validateDimensions c = Normal tt <->
  (32 | width c) /\ (32 | height c) /\ (8 | js_sub (numFrames c) 1) /\
  1 <= inferenceSteps c /\ (0 <= guidanceScale c)%Q.
Proof.
  unfold validateDimensions.
  pose proof (rem_zero_divide (width c) 32 ltac:(lia)) as Hw.
  pose proof (rem_zero_divide (height c) 32 ltac:(lia)) as Hh.
  pose proof (rem_zero_divide (js_sub (numFrames c) 1) 8 ltac:(lia)) as Hn.
  pose proof (Z.ltb_spec (inferenceSteps c) 1) as Hs.
  pose proof (Qltb_lt (guidanceScale c) 0) as Hg.
  destruct (Z.rem (width c) 32 =? 0); simpl.
  2: { split; [discriminate|]. intros (H & _). apply Hw in H. discriminate. }
  destruct (Z.rem (height c) 32 =? 0); simpl.
  2: { split; [discriminate|]. intros (_ & H & _). apply Hh in H.
       discriminate. }
  destruct (Z.rem (js_sub (numFrames c) 1) 8 =? 0); simpl.
  2: { split; [discriminate|]. intros (_ & _ & H & _). apply Hn in H.
       discriminate. }
  destruct (inferenceSteps c <? 1).
  { split; [discriminate|]. intros (_ & _ & _ & H & _). inversion Hs. lia. }
  destruct (Qltb (guidanceScale c) 0).
  { split; [discriminate|]. intros (_ & _ & _ & _ & H).
    exfalso. apply (Qlt_not_le _ _ (proj1 Hg eq_refl) H). }
  split; [|reflexivity]. intros _.
  repeat split; try (now apply Hw) || (now apply Hh) || (now apply Hn).
  - inversion Hs. lia.
  - apply Qnot_lt_le. intros H. apply Hg in H. discriminate.
Qed.

Lemma validateDimensions_total (c : Component) :
  validateDimensions c = Normal tt \/
  exists msg, validateDimensions c = Throw (ErrorObj msg).
Proof.
  unfold validateDimensions.
  repeat match goal with
         | |- context [if ?b then _ else _] => destruct b
         end; eauto.
Qed.

(** Whenever the script rejects, one of the five conditions holds of the
    parameters. *)
Lemma validateDimensions_fails_only_if (c : Component) :
  fails (validateDimensions c) ->
  ~ (32 | width c) \/ ~ (32 | height c) \/ ~ (8 | numFrames c - 1) \/
  inferenceSteps c < 1 \/ (guidanceScale c < 0)%Q.
Proof.
  intros [e He].
  destruct (divides_dec 32 (width c) ltac:(lia)) as [Hw|]; [|now left].
  destruct (divides_dec 32 (height c) ltac:(lia)) as [Hh|];
    [|now right; left].
  destruct (divides_dec 8 (numFrames c - 1) ltac:(lia)) as [Hn|];
    [|now right; right; left].
  destruct (Z_lt_le_dec (inferenceSteps c) 1) as [|Hs];
    [now right; right; right; left|].
  destruct (Qlt_le_dec (guidanceScale c) 0) as [|Hg];
    [now right; right; right; right|].
  assert (validateDimensions c = Normal tt) as H.
  { apply validateDimensions_Normal.
    repeat split; try assumption. now apply js_sub_divide_8. }
  congruence.
Qed.

(** C1, as stated, fails: above 2^53 the subtraction [numFrames - 1] rounds.
    For 9007199254740994 frames (2^53 + 2) it yields 9007199254740992, a
    multiple of 8, so the script accepts although 9007199254740993 is not
    divisible by 8. *)
Lemma validateDimensions_accepts_rounded_frames :
  let c := edit_size 704 480 9007199254740994 initial in
  ~ (8 | numFrames c - 1) /\
  js_sub (numFrames c) 1 = 9007199254740992 /\
  validateDimensions c = Normal tt.
Proof.
  split; [|split; reflexivity].
  intros [k Hk]. simpl in Hk. lia.
Qed.

(** C1, amended.  [validateDimensions] throws only when the width is not
    divisible by 32, or the height is not divisible by 32, or
    [numFrames - 1] is not divisible by 8, or [inferenceSteps < 1], or
    [guidanceScale < 0]; and for a frame count in the safe-integer range
    (magnitude at most 2^53 - 1) it throws exactly then.  At the
    boundaries, with the other inputs at their defaults: 0 inference steps
    fail and 1 passes; a guidance scale of -0.1 fails and 0 passes. *)
Theorem validateDimensions_fails_exactly :
  (forall c,
     safe_integer (numFrames c) ->
     (fails (validateDimensions c) <->
      ~ (32 | width c) \/ ~ (32 | height c) \/ ~ (8 | numFrames c - 1) \/
      inferenceSteps c < 1 \/ (guidanceScale c < 0)%Q)) /\
  (forall c,
     fails (validateDimensions c) ->
     ~ (32 | width c) \/ ~ (32 | height c) \/ ~ (8 | numFrames c - 1) \/
     inferenceSteps c < 1 \/ (guidanceScale c < 0)%Q) /\
  validateDimensions (edit_inferenceSteps 0 initial)
    = Throw (ErrorObj "Inference steps must be positive") /\
  validateDimensions (edit_inferenceSteps 1 initial) = Normal tt /\
  validateDimensions (edit_guidanceScale (-0.1)%Q initial)
    = Throw (ErrorObj "Guidance scale must be non-negative") /\
  validateDimensions (edit_guidanceScale 0%Q initial) = Normal tt.
Proof.
  split; [|split; [exact validateDimensions_fails_only_if|
                   repeat split; reflexivity]].
  intros c Hsafe. split; [apply validateDimensions_fails_only_if|].
  intros H.
  destruct (validateDimensions_total c) as [Hok | [msg Hmsg]].
  - apply validateDimensions_Normal in Hok.
    destruct Hok as (Hw & Hh & Hn & Hs & Hg).
    rewrite (js_sub_exact _ Hsafe) in Hn.
    destruct H as [H | [H | [H | [H | H]]]]; try contradiction; try lia.
    exfalso. apply (Qlt_not_le _ _ H Hg).
  - now exists (ErrorObj msg).
Qed.

Lemma validateDimensions_fails_exactly_witness :
  let c := edit_size 100 480 162 initial in
  safe_integer (numFrames c) /\
  (~ (32 | width c) \/ ~ (32 | height c) \/ ~ (8 | numFrames c - 1) \/
   inferenceSteps c < 1 \/ (guidanceScale c < 0)%Q) /\
  fails (validateDimensions c).
Proof.
  intros c.
  assert (safe_integer (numFrames c)) as Hsafe
    by (unfold safe_integer; simpl; lia).
  assert (~ (32 | width c) \/ ~ (32 | height c) \/ ~ (8 | numFrames c - 1) \/
          inferenceSteps c < 1 \/ (guidanceScale c < 0)%Q) as H
    by (left; intros [k Hk]; simpl in Hk; lia).
  split; [exact Hsafe|]. split; [exact H|].
  exact (proj2 (proj1 validateDimensions_fails_exactly c Hsafe) H).
Defined.

Lemma Qltb_Qeq (x y z : Q) : (x == y)%Q -> Qltb x z = Qltb y z.
Proof.
  intros E. pose proof (Qltb_lt x z) as Hx. pose proof (Qltb_lt y z) as Hy.
  assert (x <= y)%Q as Hxy by (rewrite E; apply Qle_refl).
  assert (y <= x)%Q as Hyx by (rewrite E; apply Qle_refl).
  destruct (Qltb x z), (Qltb y z); try reflexivity.
  - symmetry. apply Hy. apply (Qle_lt_trans _ x); [exact Hyx|]. now apply Hx.
  - apply Hx. apply (Qle_lt_trans _ y); [exact Hxy|]. now apply Hy.
Qed.

(** C9.  The outcome of [validateDimensions] is a function of [width],
    [height], [numFrames], [inferenceSteps] and [guidanceScale] alone: two
    components that agree on these five get the same outcome, the same
    message included, whatever their prompt, image URL, image file and seed;
    and emptying the prompt and the image URL changes nothing. *)
Theorem validateDimensions_reads_five_fields (c1 c2 : Component) :
  width c1 = width c2 ->
  height c1 = height c2 ->
  numFrames c1 = numFrames c2 ->
  inferenceSteps c1 = inferenceSteps c2 ->
  (guidanceScale c1 == guidanceScale c2)%Q ->
  validateDimensions c1 = validateDimensions c2 /\
  validateDimensions (edit_text "" "" c1) = validateDimensions c2.
Proof.
  intros Hw Hh Hn Hs Hg.
  assert (validateDimensions c1 = validateDimensions c2) as H.
  { unfold validateDimensions.
    rewrite Hw, Hh, Hn, Hs, (Qltb_Qeq _ _ 0 Hg). reflexivity. }
  split; [exact H|]. rewrite <- H. reflexivity.
Qed.

Lemma validateDimensions_reads_five_fields_witness :
  let c1 := edit_size 100 64 9 initial in
  let c2 :=
    edit_seed (Some 42)
      (handleFileChange [mkFile "cat.jpg" (Some "data:image/jpeg;base64,AA==")]
         (edit_text "a cat" "http://x/y.jpg"
            (edit_guidanceScale (30 # 4) (edit_size 100 64 9 initial)))) in
  validateDimensions c1 = validateDimensions c2 /\
  validateDimensions (edit_text "" "" c1) = validateDimensions c2.
Proof.
  intros c1 c2.
  apply (validateDimensions_reads_five_fields c1 c2);
    reflexivity.
Defined.

(** The checks are tried in the order they are written: the message is that
    of the first one that fails.  Only the frame check rounds, so only its
    failure needs the frame count in the safe-integer range. *)
Lemma validateDimensions_first_failure (c : Component) :
  (~ (32 | width c) \/ ~ (32 | height c) ->
   validateDimensions c
   = Throw (ErrorObj "Width and height must be divisible by 32")) /\
  ((32 | width c) -> (32 | height c) ->
   safe_integer (numFrames c) -> ~ (8 | numFrames c - 1) ->
   validateDimensions c
   = Throw (ErrorObj "Number of frames must be divisible by 8 plus 1")) /\
  ((32 | width c) -> (32 | height c) -> (8 | numFrames c - 1) ->
   inferenceSteps c < 1 ->
   validateDimensions c
   = Throw (ErrorObj "Inference steps must be positive")) /\
  ((32 | width c) -> (32 | height c) -> (8 | numFrames c - 1) ->
   1 <= inferenceSteps c -> (guidanceScale c < 0)%Q ->
   validateDimensions c
   = Throw (ErrorObj "Guidance scale must be non-negative")).
Proof.
  unfold validateDimensions.
  pose proof (rem_zero_divide (width c) 32 ltac:(lia)) as Hw.
  pose proof (rem_zero_divide (height c) 32 ltac:(lia)) as Hh.
  pose proof (rem_zero_divide (js_sub (numFrames c) 1) 8 ltac:(lia)) as Hn.
  pose proof (js_sub_divide_8 (numFrames c)) as Hdiv.
  pose proof (js_sub_exact (numFrames c)) as Hexact.
  pose proof (Z.ltb_spec (inferenceSteps c) 1) as Hs.
  pose proof (Qltb_lt (guidanceScale c) 0) as Hg.
  destruct (Z.rem (width c) 32 =? 0); simpl.
  2: { repeat split; try reflexivity; intros H; apply Hw in H; discriminate. }
  destruct (Z.rem (height c) 32 =? 0); simpl.
  2: { repeat split; try reflexivity; intros _ H; apply Hh in H;
       discriminate. }
  destruct (Z.rem (js_sub (numFrames c) 1) 8 =? 0); simpl.
  2: { repeat split; try reflexivity.
       - intros [H | H]; exfalso; apply H; [now apply Hw | now apply Hh].
       - intros _ _ H. apply Hdiv, Hn in H. discriminate.
       - intros _ _ H. apply Hdiv, Hn in H. discriminate. }
  assert (frames : safe_integer (numFrames c) -> ~ (8 | numFrames c - 1) ->
                   False).
  { intros Hsafe H. apply H. rewrite <- (Hexact Hsafe). now apply Hn. }
  destruct (inferenceSteps c <? 1).
  { repeat split; try reflexivity.
    - intros [H | H]; exfalso; apply H; [now apply Hw | now apply Hh].
    - intros _ _ Hsafe H. exfalso. now apply frames.
    - intros _ _ _ H. inversion Hs. lia. }
  destruct (Qltb (guidanceScale c) 0).
  { repeat split; try reflexivity.
    - intros [H | H]; exfalso; apply H; [now apply Hw | now apply Hh].
    - intros _ _ Hsafe H. exfalso. now apply frames.
    - intros _ _ _ H. inversion Hs. lia. }
  repeat split.
  - intros [H | H]; exfalso; apply H; [now apply Hw | now apply Hh].
  - intros _ _ Hsafe H. exfalso. now apply frames.
  - intros _ _ _ H. inversion Hs. lia.
  - intros _ _ _ _ H. apply Hg in H. discriminate.
Qed.

(** ** Submissions that stop before the network *)

Lemma handleSubmit_invalid (P : Platform) (c : Component) (e : Thrown) :
  validateDimensions c = Throw e ->
  handleSubmit P c = (early_exit (message_of e), Normal tt).
Proof.
  intros H. unfold handleSubmit. rewrite H. reflexivity.
Qed.

Lemma handleSubmit_not_configured (P : Platform) (c : Component) :
  validateDimensions c = Normal tt ->
  backend_missing P ->
  handleSubmit P c = (early_exit not_configured, Normal tt).
Proof.
  intros H [Hb | Hb]; unfold handleSubmit; rewrite H, Hb; reflexivity.
Qed.

(** C2.  A submission whose parameters fail validation makes no network
    call: when [validateDimensions] throws, as it does whenever the width
    or the height is not divisible by 32, the handler stores the message
    of the first failing check and stops, so its whole trace is the four
    assignments of [early_exit], with no file read and no [fetch]. *)
Theorem invalid_submission_never_fetches (P : Platform) (c : Component) :
  (~ (32 | width c) \/ ~ (32 | height c) -> fails (validateDimensions c)) /\
  (fails (validateDimensions c) ->
   exists msg,
     validateDimensions c = Throw (ErrorObj msg) /\
     handleSubmit P c = (early_exit msg, Normal tt) /\
     network_calls (trace P c) = [] /\
     (~ (32 | width c) \/ ~ (32 | height c) ->
      msg = "Width and height must be divisible by 32") /\
     ((32 | width c) -> (32 | height c) ->
      safe_integer (numFrames c) -> ~ (8 | numFrames c - 1) ->
      msg = "Number of frames must be divisible by 8 plus 1") /\
     ((32 | width c) -> (32 | height c) -> (8 | numFrames c - 1) ->
      inferenceSteps c < 1 -> msg = "Inference steps must be positive") /\
     ((32 | width c) -> (32 | height c) -> (8 | numFrames c - 1) ->
      1 <= inferenceSteps c -> (guidanceScale c < 0)%Q ->
      msg = "Guidance scale must be non-negative")).
Proof.
  destruct (validateDimensions_first_failure c) as (F1 & F2 & F3 & F4).
  split.
  { intros H. eexists. exact (F1 H). }
  intros [e He].
  destruct (validateDimensions_total c) as [Hok | [msg Hmsg]]; [congruence|].
  exists msg. split; [exact Hmsg|].
  pose proof (handleSubmit_invalid P c _ Hmsg) as Hrun. simpl in Hrun.
  split; [exact Hrun|].
  split; [unfold trace; rewrite Hrun; reflexivity|].
  repeat split; intros.
  - rewrite F1 in Hmsg by assumption. congruence.
  - rewrite F2 in Hmsg by assumption. congruence.
  - rewrite F3 in Hmsg by assumption. congruence.
  - rewrite F4 in Hmsg by assumption. congruence.
Qed.

Lemma invalid_submission_never_fetches_witness :
  let P := browser (Some "https://gateway.example/backend")
             (answering 200 "{}") in
  let c := edit_size 700 480 161 (edit_text "a cat" "http://x/y.jpg" initial) in
  (~ (32 | width c) \/ ~ (32 | height c)) /\
  fails (validateDimensions c) /\
  handleSubmit P c
  = (early_exit "Width and height must be divisible by 32", Normal tt) /\
  network_calls (trace P c) = [].
Proof.
  intros P c.
  assert (~ (32 | width c) \/ ~ (32 | height c)) as H
    by (left; intros [k Hk]; simpl in Hk; lia).
  destruct (invalid_submission_never_fetches P c) as [Hfails Hrun].
  split; [exact H|]. split; [exact (Hfails H)|].
  destruct (Hrun (Hfails H)) as (msg & _ & Hs & Hn & Hm & _).
  rewrite (Hm H) in Hs.
  split; [exact Hs | exact Hn].
Defined.

(** C7.  When the build carries no backend URL the submission is refused at
    submission time: no [fetch] is issued (nothing is defaulted), and a
    message is stored in [error] by the same four assignments as for a
    validation error; it is the configuration message whenever validation
    passes. *)
Theorem missing_backend_url_is_reported (P : Platform) (c : Component) :
  backend_missing P ->
  network_calls (trace P c) = [] /\
  exists msg,
    handleSubmit P c = (early_exit msg, Normal tt) /\
    error (settled P c) = Some msg /\
    (validateDimensions c = Normal tt -> msg = not_configured).
Proof.
  intros Hb.
  destruct (validateDimensions_total c) as [Hok | [msg Hmsg]].
  - pose proof (handleSubmit_not_configured P c Hok Hb) as Hrun.
    split; [unfold trace; rewrite Hrun; reflexivity|].
    exists not_configured. split; [exact Hrun|].
    split; [|reflexivity].
    unfold settled, trace. rewrite Hrun. reflexivity.
  - pose proof (handleSubmit_invalid P c _ Hmsg) as Hrun. simpl in Hrun.
    split; [unfold trace; rewrite Hrun; reflexivity|].
    exists msg. split; [exact Hrun|].
    split; [|congruence].
    unfold settled, trace. rewrite Hrun. reflexivity.
Qed.

Lemma missing_backend_url_is_reported_witness :
  let P := browser None (answering 200 "{}") in
  let c := edit_text "a cat" "http://x/y.jpg" initial in
  backend_missing P /\
  network_calls (trace P c) = [] /\
  exists msg,
    handleSubmit P c = (early_exit msg, Normal tt) /\
    error (settled P c) = Some msg /\
    (validateDimensions c = Normal tt -> msg = not_configured).
Proof.
  intros P c.
  assert (backend_missing P) as H by (left; reflexivity).
  split; [exact H|].
  exact (missing_backend_url_is_reported P c H).
Defined.

(** ** The shape of every trace *)

Ltac branch :=
  match goal with
  | |- context [validateDimensions ?c] =>
      destruct (validateDimensions c) as [[]|?] eqn:?
  | |- context [VITE_BACKEND_URL ?P] =>
      destruct (VITE_BACKEND_URL P) as [?|] eqn:?
  | |- context [String.eqb ?u ""] => destruct (String.eqb u "") eqn:?
  | |- context [inputMethod ?c] => destruct (inputMethod c) eqn:?
  | |- context [imageFile ?c] => destruct (imageFile c) as [?|] eqn:?
  | |- context [file_dataURL ?f] => destruct (file_dataURL f) as [?|] eqn:?
  | |- context [fetch ?P ?u ?i] => destruct (fetch P u i) as [?|?] eqn:?
  | |- context [ok ?r] => destruct (ok r) eqn:?
  | |- context [body_text ?r] => destruct (body_text r) as [?|?] eqn:?
  | |- context [JSON_parse ?P ?t] => destruct (JSON_parse P t) as [?|?] eqn:?
  | |- context [get_member ?v ?k] => destruct (get_member v k) as [?|?] eqn:?
  | |- context [ToString ?P ?v] => destruct (ToString P v) as [?|?] eqn:?
  end; simpl.

Lemma handleSubmit_settles (P : Platform) (c : Component) :
  exists mid,
    handleSubmit P c = (SetLoading true :: SetError None :: mid, Normal tt) /\
    settles mid = true.
Proof.
  unfold handleSubmit. repeat branch; eexists; split; reflexivity.
Qed.

Lemma run_app (t1 t2 : list Effect) (c : Component) :
  run (t1 ++ t2) c = run t2 (run t1 c).
Proof. apply fold_left_app. Qed.

Lemma run_cons (ef : Effect) (t : list Effect) (c : Component) :
  run (ef :: t) c = run t (apply ef c).
Proof. reflexivity. Qed.

(** A well-formed tail ends in [loading = false] and assigns [loading]
    nowhere else. *)
Lemma settles_loading (mid : list Effect) :
  settles mid = true ->
  exists body,
    mid = body ++ [SetLoading false] /\
    Forall (fun ef => sets_loading ef = false) body.
Proof.
  induction mid as [|ef rest IH]; [discriminate|].
  intros H.
  assert (stop : forall x, rest = [SetLoading false] ->
                           sets_loading x = false -> x = ef ->
            exists body, ef :: rest = body ++ [SetLoading false] /\
                         Forall (fun ef => sets_loading ef = false) body).
  { intros x -> Hx <-. exists [x]. split; [reflexivity|].
    constructor; [exact Hx | constructor]. }
  assert (go : is_io ef = true -> settles rest = true ->
            exists body, ef :: rest = body ++ [SetLoading false] /\
                         Forall (fun ef => sets_loading ef = false) body).
  { intros Hio Hrest. destruct (IH Hrest) as (body & -> & Hbody).
    exists (ef :: body). split; [reflexivity|].
    constructor; [destruct ef; simpl in *; congruence | exact Hbody]. }
  simpl in H.
  destruct ef as [b | [m|] | r | f | u i]; simpl in H;
    try discriminate; try (now apply go).
  - destruct rest as [|[[] | | | | ] [|? ?]]; simpl in H; try discriminate.
    now apply (stop (SetError (Some m))).
  - destruct rest as [|[[] | | | | ] [|? ?]]; simpl in H; try discriminate.
    now apply (stop (SetResult r)).
Qed.

Lemma run_keeps_loading (t : list Effect) (c : Component) :
  Forall (fun ef => sets_loading ef = false) t ->
  loading (run t c) = loading c.
Proof.
  revert c. induction t as [|ef t IH]; intros c H; [reflexivity|].
  inversion H as [|? ? Hef Ht]; subst.
  rewrite run_cons, IH by assumption.
  destruct ef; simpl in *; congruence.
Qed.

(** ** The loading flag *)

(** C5.  Whatever the parameters and whatever the platform does
    (validation failure, missing configuration, failed file read, network
    failure, error response, success), the handler returns normally, its
    trace starts with [loading = true], ends with [loading = false] and
    assigns [loading] nowhere in between.  So [loading] is false once the
    submission has settled, and true at every point strictly inside the
    submission. *)
Theorem loading_cleared_on_every_path (P : Platform) (c : Component) :
  snd (handleSubmit P c) = Normal tt /\
  (exists body,
     trace P c = SetLoading true :: body ++ [SetLoading false] /\
     Forall (fun ef => sets_loading ef = false) body) /\
  loading (settled P c) = false /\
  (forall pre post,
     trace P c = pre ++ post -> pre <> [] -> post <> [] ->
     loading (run pre c) = true).
Proof.
  destruct (handleSubmit_settles P c) as (mid & Hrun & Hmid).
  destruct (settles_loading mid Hmid) as (body0 & -> & Hbody0).
  assert (Hbody : Forall (fun ef => sets_loading ef = false)
                    (SetError None :: body0))
    by (constructor; [reflexivity | exact Hbody0]).
  assert (Htrace : trace P c
                   = SetLoading true :: (SetError None :: body0)
                       ++ [SetLoading false])
    by (unfold trace; rewrite Hrun; reflexivity).
  split; [rewrite Hrun; reflexivity|].
  split; [eexists; split; [exact Htrace | exact Hbody]|].
  split.
  - unfold settled. rewrite Htrace.
    change (SetLoading true :: (SetError None :: body0) ++ [SetLoading false])
      with ((SetLoading true :: SetError None :: body0) ++ [SetLoading false]).
    rewrite run_app. reflexivity.
  - intros pre post Hsplit Hpre Hpost. rewrite Htrace in Hsplit.
    destruct pre as [|p pre']; [contradiction|].
    destruct (exists_last Hpost) as (post' & x & ->).
    simpl in Hsplit. injection Hsplit as Hp Hrest. subst p.
    rewrite app_assoc in Hrest.
    change (SetError None :: body0 ++ [SetLoading false])
      with ((SetError None :: body0) ++ [SetLoading false]) in Hrest.
    apply app_inj_tail in Hrest. destruct Hrest as [Hrest _].
    rewrite run_cons, run_keeps_loading; [reflexivity|].
    rewrite Hrest in Hbody.
    apply Forall_app in Hbody. tauto.
Qed.

Lemma loading_cleared_on_every_path_witness :
  let P := browser (Some gateway_url) (answering 200 video_body) in
  let pre := [SetLoading true; SetError None;
              Fetch (endpoint gateway_url) (request_init P sample)] in
  let post := [SetResult (VObj [("video_url", VStr "/v/1.mp4")]);
               SetLoading false] in
  trace P sample = pre ++ post /\
  loading (run pre sample) = true /\
  loading (settled P sample) = false.
Proof.
  intros P pre post.
  assert (trace P sample = pre ++ post) as H by reflexivity.
  split; [exact H|].
  destruct (loading_cleared_on_every_path P sample) as (_ & _ & Hend & Hmid).
  split; [|exact Hend].
  apply (Hmid pre post H); discriminate.
Defined.

(** ** Error and result *)

(** Once the error has been cleared, a well-formed tail either stores a
    message and leaves the result alone, or stores a result and no
    message. *)
Lemma settles_outcome (mid : list Effect) (c : Component) :
  settles mid = true ->
  error c = None ->
  (exists m, error (run mid c) = Some m /\ result (run mid c) = result c /\
             Forall (fun ef => sets_result ef = false) mid) \/
  (exists r, error (run mid c) = None /\ result (run mid c) = r /\
             In (SetResult r) mid).
Proof.
  revert c. induction mid as [|ef rest IH]; [discriminate|].
  intros c H Herr. simpl in H.
  assert (go : is_io ef = true -> settles rest = true ->
    (exists m, error (run (ef :: rest) c) = Some m /\
               result (run (ef :: rest) c) = result c /\
               Forall (fun ef => sets_result ef = false) (ef :: rest)) \/
    (exists r, error (run (ef :: rest) c) = None /\
               result (run (ef :: rest) c) = r /\
               In (SetResult r) (ef :: rest))).
  { intros Hio Hrest. rewrite run_cons.
    assert (apply ef c = c) as -> by (destruct ef; simpl in *; congruence).
    destruct (IH c Hrest Herr) as [(m & He & Hr & Hall) | (r & He & Hr & Hin)].
    - left. exists m. repeat split; try assumption.
      constructor; [destruct ef; simpl in *; congruence | exact Hall].
    - right. exists r. repeat split; try assumption. now right. }
  destruct ef as [b | [m|] | r | f | u i]; simpl in H;
    try discriminate; try (now apply go).
  - destruct rest as [|[[] | | | | ] [|? ?]]; simpl in H; try discriminate.
    left. exists m. repeat split. repeat constructor.
  - destruct rest as [|[[] | | | | ] [|? ?]]; simpl in H; try discriminate.
    right. exists r. repeat split; [exact Herr | now left].
Qed.

(** Every submission either ends with a message and the result it started
    with, or with no message. *)
Lemma settled_outcome (P : Platform) (c : Component) :
  (exists m, error (settled P c) = Some m /\
             result (settled P c) = result c /\
             Forall (fun ef => sets_result ef = false) (trace P c)) \/
  error (settled P c) = None.
Proof.
  destruct (handleSubmit_settles P c) as (mid & Hrun & Hmid).
  unfold settled, trace. rewrite Hrun. simpl fst.
  rewrite !run_cons.
  destruct (settles_outcome mid
              (apply (SetError None) (apply (SetLoading true) c))
              Hmid eq_refl) as [(m & He & Hr & Hall) | (r & He & _)].
  - left. exists m. repeat split; try assumption.
    repeat constructor. exact Hall.
  - now right.
Qed.

(** C8, as stated, fails: a submission that succeeds followed by one that
    fails (here the network is down the second time) leaves both a message
    in [error] and the earlier object in [result], and the template's two
    independent blocks show both. *)
Lemma error_and_result_shown_together :
  let c1 := settled (browser (Some gateway_url) (answering 200 video_body))
              sample in
  let c2 := settled (browser (Some gateway_url) unreachable) c1 in
  error c1 = None /\
  result c1 = VObj [("video_url", VStr "/v/1.mp4")] /\
  error c2 = Some "Failed to fetch" /\
  result c2 = VObj [("video_url", VStr "/v/1.mp4")] /\
  error c2 <> None /\ result c2 <> VNull.
Proof.
  repeat split; try reflexivity; discriminate.
Qed.

(** C8, amended.  After a submission settles, either [error] is null or
    [result] is what it was before the submission; so a submission that
    starts with no stored result never ends with both a message and a
    result. *)
Theorem error_and_result_exclusive_from_empty (P : Platform) (c : Component) :
  (error (settled P c) = None \/ result (settled P c) = result c) /\
  (result c = VNull ->
   ~ (error (settled P c) <> None /\ result (settled P c) <> VNull)).
Proof.
  destruct (settled_outcome P c) as [(m & He & Hr & _) | He].
  - split; [now right|]. intros H0 [_ H]. apply H. congruence.
  - split; [now left|]. intros _ [H _]. contradiction.
Qed.

Lemma error_and_result_exclusive_from_empty_witness :
  let P := browser (Some gateway_url) (answering 500 oom_body) in
  result sample = VNull /\
  ~ (error (settled P sample) <> None /\ result (settled P sample) <> VNull).
Proof.
  intros P. split; [reflexivity|].
  exact (proj2 (error_and_result_exclusive_from_empty P sample) eq_refl).
Defined.

(** C10.  Every trace starts with [loading = true; error = null], before
    anything else the handler does, so the previous message is gone
    whatever happens next; and a submission that ends with a message
    (validation, configuration, transport or unknown error) never assigns
    [result], which keeps the value it had when the submission started. *)
Theorem failed_submission_keeps_result (P : Platform) (c : Component) :
  (exists rest, trace P c = SetLoading true :: SetError None :: rest) /\
  error (run [SetLoading true; SetError None] c) = None /\
  (error (settled P c) <> None ->
   result (settled P c) = result c /\
   Forall (fun ef => sets_result ef = false) (trace P c)).
Proof.
  split.
  { destruct (handleSubmit_settles P c) as (mid & Hrun & _).
    exists mid. unfold trace. rewrite Hrun. reflexivity. }
  split; [reflexivity|].
  intros H.
  destruct (settled_outcome P c) as [(m & He & Hr & Hall) | He];
    [now split | contradiction].
Qed.

Lemma failed_submission_keeps_result_witness :
  let c1 := settled (browser (Some gateway_url) (answering 200 video_body))
              sample in
  let P := browser (Some gateway_url) (answering 500 oom_body) in
  error (settled P c1) <> None /\
  result (settled P c1) = result c1 /\
  Forall (fun ef => sets_result ef = false) (trace P c1).
Proof.
  intros c1 P.
  assert (error (settled P c1) <> None) as H by discriminate.
  split; [exact H|].
  exact (proj2 (proj2 (failed_submission_keeps_result P c1)) H).
Defined.

(** ** Submissions that reach the network *)

Lemma eqb_empty_false (u : string) : u <> "" -> String.eqb u "" = false.
Proof.
  intros H. destruct (String.eqb u "") eqn:E; [|reflexivity].
  apply String.eqb_eq in E. contradiction.
Qed.

(** A ready submission makes exactly one call, with the specified request. *)
Lemma ready_calls (P : Platform) (c : Component) (u : string) :
  ready P c u ->
  network_calls (trace P c) = [Fetch (endpoint u) (request_init P c)].
Proof.
  intros (Hv & Hb & Hu & Hr). apply eqb_empty_false in Hu.
  unfold trace, handleSubmit, request_init, spec_payload, image_part,
    seed_part, readable, endpoint in *.
  rewrite Hv, Hb. simpl. rewrite Hu. simpl.
  destruct (inputMethod c); [|destruct (imageFile c) as [f|];
    [destruct (file_dataURL f); [|contradiction]|]];
    destruct (seed c); simpl; repeat branch; reflexivity.
Qed.

(** Conversely, a call is made only by a ready submission. *)
Lemma call_only_if_ready (P : Platform) (c : Component)
    (u' : string) (init : RequestInit) :
  In (Fetch u' init) (trace P c) ->
  exists u, ready P c u /\ u' = endpoint u /\ init = request_init P c.
Proof.
  unfold trace, handleSubmit, ready, readable, request_init, spec_payload,
    image_part, seed_part, endpoint.
  destruct (validateDimensions c) as [[]|e]; simpl;
    [|intros [H|[H|[H|[H|[]]]]]; discriminate].
  destruct (VITE_BACKEND_URL P) as [u|]; simpl;
    [|intros [H|[H|[H|[H|[]]]]]; discriminate].
  destruct (String.eqb u "") eqn:Hu; simpl;
    [intros [H|[H|[H|[H|[]]]]]; discriminate|].
  assert (u <> "") as Hne
    by (intros ->; rewrite String.eqb_refl in Hu; discriminate).
  destruct (inputMethod c); [|destruct (imageFile c) as [f|];
    [destruct (file_dataURL f)|]];
    destruct (seed c); simpl; repeat branch;
    intros H;
    repeat (destruct H as [H|H]; [try discriminate|]); try contradiction;
    injection H as <- <-; exists u; repeat split; auto; discriminate.
Qed.

(** What a ready submission stores when the gateway answers with a
    non-success status and a readable body. *)
Lemma ready_error_response (P : Platform) (c : Component) (u : string)
    (resp : Response) (text : string) :
  ready P c u ->
  fetch P (endpoint u) (request_init P c) = Normal resp ->
  ok resp = false ->
  body_text resp = Normal text ->
  error (settled P c) = Some (displayed_message P text).
Proof.
  intros (Hv & Hb & Hu & Hr) Hf Hok Ht. apply eqb_empty_false in Hu.
  unfold settled, trace, handleSubmit, request_init, spec_payload, image_part,
    seed_part, readable, endpoint, displayed_message, detail_of in *.
  rewrite Hv, Hb. simpl. rewrite Hu. simpl.
  destruct (inputMethod c); [|destruct (imageFile c) as [f|];
    [destruct (file_dataURL f); [|contradiction]|]];
    destruct (seed c); simpl in *; rewrite Hf; simpl; rewrite Hok, Ht; simpl;
    (destruct (JSON_parse P text) as [v|e]; simpl; [|reflexivity]);
    (destruct v as [| | | | |props]; simpl; try reflexivity);
    (destruct (lookup "detail" props) as [d|]; simpl; [|reflexivity]);
    unfold message_from;
    (destruct (truthy d); [destruct (ToString P d)|]; reflexivity).
Qed.

(** ** The request payload *)

Lemma spec_payload_seed (c : Component) :
  lookup "seed" (spec_payload c)
  = option_map (fun s => VNum (inject_Z s)) (seed c).
Proof.
  unfold spec_payload, image_part, seed_part.
  destruct (inputMethod c); [|destruct (imageFile c) as [f|];
    [destruct (file_dataURL f)|]]; destruct (seed c); reflexivity.
Qed.

Lemma spec_payload_image_url (c : Component) :
  lookup "image_url" (spec_payload c)
  = match inputMethod c with
    | url => Some (VStr (imageUrl c))
    | file => None
    end.
Proof.
  unfold spec_payload, image_part, seed_part.
  destruct (inputMethod c); [|destruct (imageFile c) as [f|];
    [destruct (file_dataURL f)|]]; destruct (seed c); reflexivity.
Qed.

Lemma spec_payload_image_base64 (c : Component) :
  lookup "image_base64" (spec_payload c)
  = match inputMethod c, imageFile c with
    | file, Some f => option_map VStr (file_dataURL f)
    | _, _ => None
    end.
Proof.
  unfold spec_payload, image_part, seed_part.
  destruct (inputMethod c); [|destruct (imageFile c) as [f|];
    [destruct (file_dataURL f)|]]; destruct (seed c); reflexivity.
Qed.

(** C4.  A submission that nothing stops before the network makes exactly
    one call, a POST to [backendUrl/generate-video] whose body is the JSON
    text of the six validated parameters followed by the selected image
    source and, only when the seed is non-null, the seed.  For the sample
    request (704 x 480, 161 frames, 50 steps, guidance 7.5, prompt "a cat",
    image URL "http://x/y.jpg", no seed) validation passes and the body is
    the JSON text of exactly these seven properties, with no [seed] key. *)
Theorem submit_payload :
  (forall P c u,
     ready P c u ->
     network_calls (trace P c) = [Fetch (endpoint u) (request_init P c)] /\
     (has_key "seed" (spec_payload c) = true <-> seed c <> None) /\
     (inputMethod c = url ->
      lookup "image_url" (spec_payload c) = Some (VStr (imageUrl c)) /\
      has_key "image_base64" (spec_payload c) = false) /\
     (forall f d,
        inputMethod c = file -> imageFile c = Some f ->
        file_dataURL f = Some d ->
        lookup "image_base64" (spec_payload c) = Some (VStr d) /\
        has_key "image_url" (spec_payload c) = false)) /\
  validateDimensions sample = Normal tt /\
  (forall P u,
     VITE_BACKEND_URL P = Some u -> u <> ""%string ->
     network_calls (trace P sample)
     = [Fetch (endpoint u)
          {| method := "POST";
             body := JSON_stringify P
                       (VObj [("prompt", VStr "a cat");
                              ("inference_steps", VNum 50);
                              ("guidance_scale", VNum 7.5);
                              ("width", VNum 704);
                              ("height", VNum 480);
                              ("num_frames", VNum 161);
                              ("image_url", VStr "http://x/y.jpg")]);
             headers := json_headers |}]) /\
  has_key "seed" (spec_payload sample) = false.
Proof.
  split; [|split; [reflexivity | split; [|reflexivity]]].
  - intros P c u Hready.
    split; [now apply ready_calls|].
    unfold has_key.
    rewrite spec_payload_seed, spec_payload_image_url,
      spec_payload_image_base64.
    split; [|split].
    + destruct (seed c); simpl; split; congruence.
    + intros ->. split; reflexivity.
    + intros f d -> -> ->. split; reflexivity.
  - intros P u Hb Hu.
    apply (ready_calls P sample u).
    repeat split; assumption.
Qed.

Lemma submit_payload_witness :
  let P := browser (Some gateway_url) (answering 200 video_body) in
  let c := edit_seed (Some 7)
             (edit_inputMethod file
                (handleFileChange
                   [mkFile "cat.jpg" (Some "data:image/jpeg;base64,/9j/")]
                   sample)) in
  ready P c gateway_url /\
  network_calls (trace P c)
  = [Fetch (endpoint gateway_url) (request_init P c)] /\
  JSON.parse (body (request_init P c))
  = Normal (VObj [("prompt", VStr "a cat");
                  ("inference_steps", VNum 50);
                  ("guidance_scale", VNum (15 # 2));
                  ("width", VNum 704);
                  ("height", VNum 480);
                  ("num_frames", VNum 161);
                  ("image_base64", VStr "data:image/jpeg;base64,/9j/");
                  ("seed", VNum 7)]).
Proof.
  intros P c.
  assert (ready P c gateway_url) as H
    by (repeat split; simpl; discriminate).
  split; [exact H|].
  split; [exact (proj1 (proj1 submit_payload P c gateway_url H))|].
  vm_compute. reflexivity.
Defined.

(** C6, as stated, fails: with the file input method selected and no file
    chosen, the handler skips both branches and sends a payload with
    neither [image_url] nor [image_base64]. *)
Lemma file_method_without_file_sends_no_image :
  let P := browser (Some gateway_url) (answering 200 video_body) in
  let c := edit_inputMethod file sample in
  let payload := [("prompt", VStr "a cat");
                  ("inference_steps", VNum 50);
                  ("guidance_scale", VNum 7.5);
                  ("width", VNum 704);
                  ("height", VNum 480);
                  ("num_frames", VNum 161)] in
  imageFile c = None /\
  network_calls (trace P c)
  = [Fetch (endpoint gateway_url)
       {| method := "POST";
          body := JSON_stringify P (VObj payload);
          headers := json_headers |}] /\
  has_key "image_url" payload = false /\
  has_key "image_base64" payload = false.
Proof.
  repeat split.
Qed.

(** C6, amended.  In every request the handler sends, [image_url] is
    present exactly when the input method is the URL, and [image_base64]
    exactly when the input method is the file upload and a file has been
    chosen; so never both, and neither only when the file method is
    selected with no file. *)
Theorem image_source_fields (P : Platform) (c : Component)
    (u : string) (init : RequestInit) :
  In (Fetch u init) (trace P c) ->
  body init = JSON_stringify P (VObj (spec_payload c)) /\
  (has_key "image_url" (spec_payload c) = true <-> inputMethod c = url) /\
  (has_key "image_base64" (spec_payload c) = true <->
   inputMethod c = file /\ imageFile c <> None) /\
  ~ (has_key "image_url" (spec_payload c) = true /\
     has_key "image_base64" (spec_payload c) = true).
Proof.
  intros Hin.
  destruct (call_only_if_ready P c u init Hin)
    as (u0 & (_ & _ & _ & Hread) & _ & ->).
  split; [reflexivity|].
  unfold has_key.
  rewrite spec_payload_image_url, spec_payload_image_base64.
  unfold readable in Hread.
  destruct (inputMethod c); [|destruct (imageFile c) as [f|];
    [destruct (file_dataURL f); [|contradiction]|]]; simpl;
    repeat split; try congruence; try discriminate;
    try (intros [? ?]; congruence); try (intros [? ?]; discriminate).
Qed.

Lemma image_source_fields_witness :
  let P := browser (Some gateway_url) (answering 200 video_body) in
  let u := endpoint gateway_url in
  let init := request_init P sample in
  In (Fetch u init) (trace P sample) /\
  body init = JSON_stringify P (VObj (spec_payload sample)) /\
  (has_key "image_url" (spec_payload sample) = true <->
   inputMethod sample = url) /\
  (has_key "image_base64" (spec_payload sample) = true <->
   inputMethod sample = file /\ imageFile sample <> None) /\
  ~ (has_key "image_url" (spec_payload sample) = true /\
     has_key "image_base64" (spec_payload sample) = true).
Proof.
  intros P u init.
  assert (In (Fetch u init) (trace P sample)) as H
    by (right; right; left; reflexivity).
  split; [exact H|].
  exact (image_source_fields P sample u init H).
Defined.

(** ** Error responses *)

(** C3, as stated, fails: a 500 response whose body [{}] parses as JSON but
    has no [detail] shows the handler's own default message, which is
    neither a [detail] field nor the response text. *)
Lemma error_response_without_detail :
  let P := browser (Some gateway_url) (answering 500 "{}") in
  fetch P (endpoint gateway_url) (request_init P sample)
  = Normal {| status := 500; body_text := Normal "{}"%string |} /\
  network_calls (trace P sample)
  = [Fetch (endpoint gateway_url) (request_init P sample)] /\
  JSON_parse P "{}" = Normal (VObj []) /\
  detail_of (VObj []) = None /\
  error (settled P sample) = Some "Failed to generate video"%string.
Proof.
  repeat split.
Qed.

(** C3, amended.  When the gateway answers the request with a non-success
    status and a readable body, the message stored in [error] is: the
    response text when it does not parse as JSON, or parses to [null]; when
    the parsed object has a truthy [detail], that [detail] converted to a
    string as [new Error] does (for a non-empty string, the string itself;
    for an object, "[object Object]"), or, when the conversion itself
    throws (an object with its own [toString] property), the message of
    that [TypeError]; and "Failed to generate video" when the text parses
    to anything without a truthy [detail].  With the reference parser,
    status 500 with body [{"detail":"oom"}] gives exactly "oom", and status
    500 with body [server exploded] gives exactly "server exploded". *)
Theorem error_response_message :
  (forall P c u init resp text,
     In (Fetch u init) (trace P c) ->
     fetch P u init = Normal resp ->
     ok resp = false ->
     body_text resp = Normal text ->
     error (settled P c) = Some (displayed_message P text)) /\
  (forall P text,
     (forall e, JSON_parse P text = Throw e ->
                displayed_message P text = text) /\
     (JSON_parse P text = Normal VNull -> displayed_message P text = text) /\
     (forall props s,
        JSON_parse P text = Normal (VObj props) ->
        lookup "detail" props = Some (VStr s) -> s <> ""%string ->
        displayed_message P text = s) /\
     (forall props d str,
        JSON_parse P text = Normal (VObj props) ->
        lookup "detail" props = Some d -> truthy d = true ->
        ToString P d = Normal str ->
        displayed_message P text = str) /\
     (forall props d e,
        JSON_parse P text = Normal (VObj props) ->
        lookup "detail" props = Some d -> truthy d = true ->
        ToString P d = Throw e ->
        displayed_message P text = message_of e) /\
     (forall props inner,
        JSON_parse P text = Normal (VObj props) ->
        lookup "detail" props = Some (VObj inner) ->
        displayed_message P text
        = if has_key "toString" inner then TypeError_to_primitive P
          else "[object Object]"%string) /\
     (forall v,
        JSON_parse P text = Normal v -> v <> VNull ->
        (forall d, detail_of v = Some d -> truthy d = false) ->
        displayed_message P text = "Failed to generate video"%string)) /\
  (forall backendUrl c,
     let P := browser backendUrl (answering 500 oom_body) in
     network_calls (trace P c) <> [] ->
     error (settled P c) = Some "oom"%string) /\
  (forall backendUrl c,
     let P := browser backendUrl (answering 500 "server exploded") in
     network_calls (trace P c) <> [] ->
     error (settled P c) = Some "server exploded"%string).
Proof.
  assert (general : forall P c u init resp text,
     In (Fetch u init) (trace P c) ->
     fetch P u init = Normal resp ->
     ok resp = false ->
     body_text resp = Normal text ->
     error (settled P c) = Some (displayed_message P text)).
  { intros P c u init resp text Hin Hf Hok Ht.
    destruct (call_only_if_ready P c u init Hin) as (u0 & Hready & -> & ->).
    now apply (ready_error_response P c u0 resp text). }
  assert (answered : forall backendUrl st text c,
     let P := browser backendUrl (answering st text) in
     ok {| status := st; body_text := Normal text |} = false ->
     network_calls (trace P c) <> [] ->
     error (settled P c) = Some (displayed_message P text)).
  { intros backendUrl st text c P Hok Hcalls.
    destruct (network_calls (trace P c)) as [|ef rest] eqn:E;
      [contradiction|].
    assert (In ef (network_calls (trace P c))) as Hin
      by (rewrite E; now left).
    apply filter_In in Hin. destruct Hin as [Hin Hfetch].
    destruct ef as [| | | |u init]; try discriminate.
    now apply (general P c u init {| status := st; body_text := Normal text |}
                 text). }
  split; [exact general|].
  split; [|split; intros backendUrl c P Hcalls].
  2: { exact (answered backendUrl 500 oom_body c eq_refl Hcalls). }
  2: { exact (answered backendUrl 500 "server exploded"%string c eq_refl
                Hcalls). }
  intros P text. unfold displayed_message, message_from.
  repeat split.
  - intros e ->. reflexivity.
  - intros ->. reflexivity.
  - intros props s -> Hs Hne. simpl. rewrite Hs. simpl.
    rewrite eqb_empty_false by exact Hne. reflexivity.
  - intros props d str -> Hd Ht Hstr. simpl. rewrite Hd, Ht, Hstr.
    reflexivity.
  - intros props d e -> Hd Ht He. simpl. rewrite Hd, Ht, He. reflexivity.
  - intros props inner -> Hd. simpl. rewrite Hd. simpl.
    destruct (has_key "toString" inner); reflexivity.
  - intros v -> Hv Hd.
    destruct v; try contradiction; try reflexivity.
    simpl in *. destruct (lookup "detail" props) as [d|]; [|reflexivity].
    rewrite (Hd d eq_refl). reflexivity.
Qed.

Lemma error_response_message_witness :
  let P := browser (Some gateway_url) (answering 418 oom_body) in
  let u := endpoint gateway_url in
  let init := request_init P sample in
  let resp := {| status := 418; body_text := Normal oom_body |} in
  In (Fetch u init) (trace P sample) /\
  fetch P u init = Normal resp /\
  ok resp = false /\
  body_text resp = Normal oom_body /\
  JSON_parse P oom_body = Normal (VObj [("detail", VStr "oom")]) /\
  error (settled P sample) = Some "oom"%string.
Proof.
  intros P u init resp.
  assert (In (Fetch u init) (trace P sample)) as Hin
    by (right; right; left; reflexivity).
  split; [exact Hin|].
  do 4 (split; [reflexivity|]).
  exact (proj1 error_response_message P sample u init resp oom_body
           Hin eq_refl eq_refl eq_refl).
Defined.

(** A [detail] object with its own [toString] property: the conversion in
    [new Error] throws outside the inner [try], and the outer [catch]
    shows that error's message. *)
Example detail_with_own_toString :
  let text := ("{" ++ dq ++ "detail" ++ dq ++ ":{" ++ dq ++ "toString" ++ dq
               ++ ":1}}")%string in
  let P := browser (Some gateway_url) (answering 500 text) in
  JSON_parse P text
  = Normal (VObj [("detail", VObj [("toString", VNum 1)])]) /\
  error (settled P sample)
  = Some "Cannot convert object to primitive value"%string.
Proof.
  split; reflexivity.
Qed.

(** * Further properties of the handler *)

Ltac ready_cases c :=
  destruct (inputMethod c);
  [|destruct (imageFile c) as [?f|];
    [destruct (file_dataURL f); [|contradiction]|]];
  destruct (seed c); simpl in *.

(** A ready submission reads the file, if the method needs one, then sends
    the request, then makes one assignment that depends on the answer. *)
Lemma ready_trace (P : Platform) (c : Component) (u : string) :
  ready P c u ->
  exists out,
    trace P c
    = SetLoading true :: SetError None :: file_reads c
        ++ [Fetch (endpoint u) (request_init P c); out; SetLoading false] /\
    is_io out = false /\ sets_loading out = false.
Proof.
  intros (Hv & Hb & Hu & Hr). apply eqb_empty_false in Hu.
  unfold trace, handleSubmit, request_init, spec_payload, image_part,
    seed_part, readable, endpoint, file_reads in *.
  rewrite Hv, Hb. simpl. rewrite Hu. simpl.
  ready_cases c; repeat branch; eexists; repeat split.
Qed.

(** X1.  When the gateway answers a ready submission with a success status
    and a body that parses as JSON, the handler stores the parsed value in
    [result], whatever was there before, leaves [error] null and clears
    [loading]; the trace is the file read (if any), the request, and that
    one assignment. *)
Theorem success_stores_response (P : Platform) (c : Component) (u : string)
    (resp : Response) (text : string) (v : value) :
  ready P c u ->
  fetch P (endpoint u) (request_init P c) = Normal resp ->
  ok resp = true ->
  body_text resp = Normal text ->
  JSON_parse P text = Normal v ->
  trace P c
  = SetLoading true :: SetError None :: file_reads c
      ++ [Fetch (endpoint u) (request_init P c); SetResult v;
          SetLoading false] /\
  result (settled P c) = v /\
  error (settled P c) = None /\
  loading (settled P c) = false.
Proof.
  intros (Hv & Hb & Hu & Hr) Hf Hok Ht Hp. apply eqb_empty_false in Hu.
  unfold settled, trace, handleSubmit, request_init, spec_payload, image_part,
    seed_part, readable, endpoint, file_reads in *.
  rewrite Hv, Hb. simpl. rewrite Hu. simpl.
  ready_cases c; rewrite Hf; simpl; rewrite Hok, Ht; simpl; rewrite Hp;
    simpl; repeat split.
Qed.

Lemma success_stores_response_witness :
  let P := browser (Some gateway_url) (answering 201 video_body) in
  let c := edit_inputMethod file
             (handleFileChange
                [mkFile "cat.jpg" (Some "data:image/jpeg;base64,/9j/")]
                (settled (browser (Some gateway_url) (answering 200 "[1]"))
                   sample)) in
  let v := VObj [("video_url", VStr "/v/1.mp4")] in
  result c = VArr [VNum 1] /\
  ready P c gateway_url /\
  trace P c
  = SetLoading true :: SetError None :: file_reads c
      ++ [Fetch (endpoint gateway_url) (request_init P c); SetResult v;
          SetLoading false] /\
  result (settled P c) = v /\
  error (settled P c) = None /\
  loading (settled P c) = false.
Proof.
  intros P c v.
  assert (ready P c gateway_url) as H by (repeat split; simpl; discriminate).
  split; [reflexivity|]. split; [exact H|].
  exact (success_stores_response P c gateway_url
           {| status := 201; body_text := Normal video_body |} video_body v
           H eq_refl eq_refl eq_refl eq_refl).
Defined.

(** X2.  When [fetch] rejects (no response arrives), a ready submission
    stores the rejection's message, or "An unknown error occurred" when the
    rejection is not an [Error], and leaves [result] as it was; the request
    was issued once and is not retried. *)
Theorem network_failure_reported (P : Platform) (c : Component) (u : string)
    (e : Thrown) :
  ready P c u ->
  fetch P (endpoint u) (request_init P c) = Throw e ->
  trace P c
  = SetLoading true :: SetError None :: file_reads c
      ++ [Fetch (endpoint u) (request_init P c);
          SetError (Some (message_of e)); SetLoading false] /\
  error (settled P c) = Some (message_of e) /\
  result (settled P c) = result c /\
  (e = NotAnError ->
   error (settled P c) = Some "An unknown error occurred"%string).
Proof.
  intros (Hv & Hb & Hu & Hr) Hf. apply eqb_empty_false in Hu.
  unfold settled, trace, handleSubmit, request_init, spec_payload, image_part,
    seed_part, readable, endpoint, file_reads in *.
  rewrite Hv, Hb. simpl. rewrite Hu. simpl.
  ready_cases c; rewrite Hf; simpl; repeat split; intros ->; reflexivity.
Qed.

Lemma network_failure_reported_witness :
  let P := browser (Some gateway_url) unreachable in
  ready P sample gateway_url /\
  trace P sample
  = SetLoading true :: SetError None :: file_reads sample
      ++ [Fetch (endpoint gateway_url) (request_init P sample);
          SetError (Some "Failed to fetch"%string); SetLoading false] /\
  error (settled P sample) = Some "Failed to fetch"%string /\
  result (settled P sample) = result sample.
Proof.
  intros P.
  assert (ready P sample gateway_url) as H
    by (repeat split; simpl; discriminate).
  split; [exact H|].
  destruct (network_failure_reported P sample gateway_url
              (ErrorObj "Failed to fetch") H eq_refl) as (Ht & He & Hr & _).
  split; [exact Ht|]. split; [exact He | exact Hr].
Defined.

(** X3.  When the chosen file cannot be read, the submission ends there:
    the read is the only I/O, no request is sent, and since the rejection
    is not an [Error] the stored message is "An unknown error occurred". *)
Theorem unreadable_file_stops_submission (P : Platform) (c : Component)
    (u : string) (f : File) :
  validateDimensions c = Normal tt ->
  VITE_BACKEND_URL P = Some u -> u <> ""%string ->
  inputMethod c = file ->
  imageFile c = Some f ->
  file_dataURL f = None ->
  trace P c
  = [SetLoading true; SetError None; ReadAsDataURL f;
     SetError (Some "An unknown error occurred"%string); SetLoading false] /\
  network_calls (trace P c) = [] /\
  result (settled P c) = result c.
Proof.
  intros Hv Hb Hu Hm Hf Hd. apply eqb_empty_false in Hu.
  unfold settled, trace, handleSubmit.
  rewrite Hv, Hb. simpl. rewrite Hu. simpl. rewrite Hm, Hf. simpl.
  rewrite Hd. repeat split.
Qed.

Lemma unreadable_file_stops_submission_witness :
  let P := browser (Some gateway_url) (answering 200 video_body) in
  let f := mkFile "cat.jpg" None in
  let c := edit_inputMethod file (handleFileChange [f] sample) in
  trace P c
  = [SetLoading true; SetError None; ReadAsDataURL f;
     SetError (Some "An unknown error occurred"%string); SetLoading false] /\
  network_calls (trace P c) = [] /\
  result (settled P c) = result c.
Proof.
  intros P f c.
  apply (unreadable_file_stops_submission P c gateway_url f);
    try reflexivity; discriminate.
Defined.

(** X4.  A response whose body cannot be used is an error, not a result:
    when reading the body fails (whatever the status), or when a success
    status comes with text that is not JSON, the handler stores the
    message of that failure and leaves [result] as it was. *)
Theorem unusable_body_reported (P : Platform) (c : Component) (u : string)
    (resp : Response) (e : Thrown) :
  ready P c u ->
  fetch P (endpoint u) (request_init P c) = Normal resp ->
  body_text resp = Throw e \/
  (ok resp = true /\
   exists text, body_text resp = Normal text /\ JSON_parse P text = Throw e) ->
  error (settled P c) = Some (message_of e) /\
  result (settled P c) = result c /\
  Forall (fun ef => sets_result ef = false) (trace P c).
Proof.
  intros (Hv & Hb & Hu & Hr) Hf Hbody. apply eqb_empty_false in Hu.
  unfold settled, trace, handleSubmit, request_init, spec_payload, image_part,
    seed_part, readable, endpoint in *.
  rewrite Hv, Hb. simpl. rewrite Hu. simpl.
  destruct Hbody as [Ht | (Hok & text & Ht & Hp)].
  - ready_cases c; rewrite Hf; simpl; destruct (ok resp); simpl;
      rewrite Ht; simpl; repeat split; repeat constructor.
  - ready_cases c; rewrite Hf; simpl; rewrite Hok, Ht; simpl; rewrite Hp;
      simpl; repeat split; repeat constructor.
Qed.

Lemma unusable_body_reported_witness :
  let P := browser (Some gateway_url) (answering 200 "<html>ok</html>") in
  let c := settled (browser (Some gateway_url) (answering 200 video_body))
             sample in
  ready P c gateway_url /\
  error (settled P c) = Some "Unexpected token in JSON"%string /\
  result (settled P c) = VObj [("video_url", VStr "/v/1.mp4")] /\
  Forall (fun ef => sets_result ef = false) (trace P c).
Proof.
  intros P c.
  assert (ready P c gateway_url) as H by (repeat split; simpl; discriminate).
  split; [exact H|].
  apply (unusable_body_reported P c gateway_url
           {| status := 200; body_text := Normal "<html>ok</html>"%string |}
           (ErrorObj "Unexpected token in JSON") H eq_refl).
  right. split; [reflexivity|].
  exists "<html>ok</html>"%string. split; reflexivity.
Defined.

(** X5.  A submission sends a request exactly when nothing stops it before
    the network (valid parameters, a non-empty backend URL, a readable
    file if one is needed); it never sends more than one; and whatever it
    sends is a POST to [backendUrl/generate-video] with the two JSON
    headers. *)
Theorem request_sent_iff_ready (P : Platform) (c : Component) :
  (network_calls (trace P c) <> [] <-> exists u, ready P c u) /\
  (List.length (network_calls (trace P c)) <= 1)%nat /\
  (forall u init,
     In (Fetch u init) (trace P c) ->
     method init = "POST"%string /\
     headers init = json_headers /\
     exists b, VITE_BACKEND_URL P = Some b /\
               u = (b ++ "/generate-video")%string).
Proof.
  assert (Hin : forall ef rest, network_calls (trace P c) = ef :: rest ->
                  exists u, ready P c u).
  { intros ef rest E.
    assert (In ef (network_calls (trace P c))) as H by (rewrite E; now left).
    apply filter_In in H. destruct H as [H Hf].
    destruct ef as [| | | |u init]; try discriminate.
    destruct (call_only_if_ready P c u init H) as (b & Hb & _).
    now exists b. }
  split; [split|split].
  - intros H. destruct (network_calls (trace P c)) as [|ef rest] eqn:E;
      [contradiction|]. now apply (Hin ef rest).
  - intros [u Hu]. rewrite (ready_calls P c u Hu). discriminate.
  - destruct (network_calls (trace P c)) as [|ef rest] eqn:E;
      [simpl; lia|].
    destruct (Hin ef rest eq_refl) as [u Hu].
    rewrite (ready_calls P c u Hu) in E. injection E as <- <-.
    simpl. lia.
  - intros u init H.
    destruct (call_only_if_ready P c u init H)
      as (b & (_ & Hb & _) & -> & ->).
    repeat split. now exists b.
Qed.

Lemma request_sent_iff_ready_witness :
  let P := browser (Some gateway_url) (answering 200 video_body) in
  let u := endpoint gateway_url in
  let init := request_init P sample in
  In (Fetch u init) (trace P sample) /\
  method init = "POST"%string /\
  headers init = json_headers /\
  exists b, VITE_BACKEND_URL P = Some b /\
            u = (b ++ "/generate-video")%string.
Proof.
  intros P u init.
  assert (In (Fetch u init) (trace P sample)) as H
    by (right; right; left; reflexivity).
  split; [exact H|].
  exact (proj2 (proj2 (request_sent_iff_ready P sample)) u init H).
Defined.

Lemma not_missing (P : Platform) :
  ~ backend_missing P ->
  exists u, VITE_BACKEND_URL P = Some u /\ u <> ""%string.
Proof.
  unfold backend_missing. intros H.
  destruct (VITE_BACKEND_URL P) as [u|]; [|exfalso; apply H; now left].
  exists u. split; [reflexivity|]. intros ->. apply H. now right.
Qed.

(** X6.  The chosen file is read only when it is going to be sent: the
    reads of a submission are exactly [file_reads] (the chosen file, when
    the method is the file upload) once validation has passed and the
    backend URL is present, and none otherwise.  In particular a file
    chosen earlier is never read in URL mode, nor when the submission is
    refused. *)
Theorem file_read_only_when_needed (P : Platform) (c : Component) :
  (validateDimensions c = Normal tt -> ~ backend_missing P ->
   filter is_read (trace P c) = file_reads c) /\
  (fails (validateDimensions c) \/ backend_missing P ->
   filter is_read (trace P c) = []) /\
  (inputMethod c = url -> filter is_read (trace P c) = []).
Proof.
  assert (Hrefused : fails (validateDimensions c) \/ backend_missing P ->
                     filter is_read (trace P c) = []).
  { intros [[e He] | Hb].
    - unfold trace. rewrite (handleSubmit_invalid P c e He). reflexivity.
    - destruct (validateDimensions_total c) as [Hok | [msg Hmsg]].
      + unfold trace. rewrite (handleSubmit_not_configured P c Hok Hb).
        reflexivity.
      + unfold trace. rewrite (handleSubmit_invalid P c _ Hmsg).
        reflexivity. }
  assert (Hpass : validateDimensions c = Normal tt -> ~ backend_missing P ->
                  filter is_read (trace P c) = file_reads c).
  { intros Hv Hb. destruct (not_missing P Hb) as (u & Hu & Hne).
    apply eqb_empty_false in Hne.
    unfold trace, handleSubmit, file_reads.
    rewrite Hv, Hu. simpl. rewrite Hne. simpl.
    destruct (inputMethod c);
      [|destruct (imageFile c) as [f|]; [destruct (file_dataURL f)|]];
      simpl; repeat branch; reflexivity. }
  split; [exact Hpass|]. split; [exact Hrefused|].
  intros Hm.
  destruct (validateDimensions_total c) as [Hok | [msg Hmsg]].
  - assert (backend_missing P \/ ~ backend_missing P) as [Hb | Hb].
    { unfold backend_missing.
      destruct (VITE_BACKEND_URL P) as [u|]; [|now left; left].
      destruct (String.eqb u "") eqn:E.
      - apply String.eqb_eq in E. subst. now left; right.
      - right. intros [H | H]; [discriminate|].
        injection H as ->. rewrite String.eqb_refl in E. discriminate. }
    + apply Hrefused. now right.
    + rewrite (Hpass Hok Hb). unfold file_reads. rewrite Hm. reflexivity.
  - apply Hrefused. left. now exists (ErrorObj msg).
Qed.

Lemma file_read_only_when_needed_witness :
  let P := browser (Some gateway_url) (answering 200 video_body) in
  let f := mkFile "cat.jpg" (Some "data:image/jpeg;base64,/9j/") in
  let c := handleFileChange [f] sample in
  imageFile c = Some f /\
  inputMethod c = url /\
  filter is_read (trace P c) = [] /\
  filter is_read (trace P (edit_inputMethod file c)) = [ReadAsDataURL f].
Proof.
  intros P f c.
  split; [reflexivity|]. split; [reflexivity|].
  split.
  - exact (proj2 (proj2 (file_read_only_when_needed P c)) eq_refl).
  - apply (proj1 (file_read_only_when_needed P (edit_inputMethod file c)));
      [reflexivity|].
    intros [H | H]; discriminate.
Defined.

(** ** What the handler reads and what it leaves alone *)

Lemma handleSubmit_same_inputs (P : Platform) (c1 c2 : Component) :
  same_inputs c1 c2 -> handleSubmit P c1 = handleSubmit P c2.
Proof.
  destruct c1, c2. unfold same_inputs. simpl.
  intros (-> & -> & -> & -> & -> & -> & -> & -> & -> & ->). reflexivity.
Qed.

Lemma run_same_inputs (t : list Effect) (c : Component) :
  same_inputs c (run t c).
Proof.
  revert c. induction t as [|ef t IH]; intros c.
  - repeat split.
  - rewrite run_cons.
    destruct (IH (apply ef c))
      as (H1 & H2 & H3 & H4 & H5 & H6 & H7 & H8 & H9 & H10).
    destruct ef; simpl in *; repeat split; assumption.
Qed.

(** The end of a well-formed tail, as two assignments. *)
Lemma settles_final (mid : list Effect) :
  settles mid = true ->
  exists out,
    ((exists m, out = SetError (Some m)) \/ (exists r, out = SetResult r)) /\
    In out mid /\
    forall c, run mid c = apply (SetLoading false) (apply out c).
Proof.
  induction mid as [|ef rest IH]; [discriminate|].
  intros H. simpl in H.
  assert (go : is_io ef = true -> settles rest = true ->
    exists out,
      ((exists m, out = SetError (Some m)) \/ (exists r, out = SetResult r)) /\
      In out (ef :: rest) /\
      forall c, run (ef :: rest) c = apply (SetLoading false) (apply out c)).
  { intros Hio Hrest. destruct (IH Hrest) as (out & Hout & Hin & Hrun).
    exists out. split; [exact Hout|]. split; [now right|].
    intros c. rewrite run_cons, Hrun.
    destruct ef; simpl in Hio; try discriminate; reflexivity. }
  destruct ef as [b | [m|] | r | f | u i]; simpl in H;
    try discriminate; try (now apply go).
  - destruct rest as [|[[] | | | | ] [|? ?]]; simpl in H; try discriminate.
    exists (SetError (Some m)). split; [left; now exists m|].
    split; [now left | reflexivity].
  - destruct rest as [|[[] | | | | ] [|? ?]]; simpl in H; try discriminate.
    exists (SetResult r). split; [right; now exists r|].
    split; [now left | reflexivity].
Qed.

(** X7.  The handler reads the form's inputs only: two components with the
    same inputs produce the same trace whatever their [loading], [error]
    and [result], so a submission starts even while [loading] is true.
    It assigns none of the inputs.  Hence submitting again, unchanged, on
    a platform that behaves the same leaves the component exactly as the
    first submission left it. *)
Theorem resubmission_is_idempotent (P : Platform) (c : Component) :
  (forall c', same_inputs c c' -> handleSubmit P c' = handleSubmit P c) /\
  same_inputs c (settled P c) /\
  trace P (settled P c) = trace P c /\
  settled P (settled P c) = settled P c.
Proof.
  assert (Hsame : same_inputs c (settled P c)) by apply run_same_inputs.
  assert (Htrace : trace P (settled P c) = trace P c).
  { unfold trace.
    rewrite (handleSubmit_same_inputs P (settled P c) c); [reflexivity|].
    unfold same_inputs in *. intuition congruence. }
  split.
  { intros c' H. now apply handleSubmit_same_inputs; unfold same_inputs in *;
      intuition congruence. }
  split; [exact Hsame|]. split; [exact Htrace|].
  unfold settled at 1. rewrite Htrace. unfold settled.
  destruct (handleSubmit_settles P c) as (mid & Hrun & Hmid).
  unfold trace. rewrite Hrun. simpl fst.
  destruct (settles_final mid Hmid) as (out & Hout & _ & Hfinal).
  rewrite !run_cons, !Hfinal.
  destruct Hout as [[m ->] | [r ->]]; reflexivity.
Qed.

Lemma resubmission_is_idempotent_witness :
  let P := browser (Some gateway_url) (answering 200 video_body) in
  let c' := apply (SetLoading true)
              (apply (SetError (Some "old"%string)) sample) in
  same_inputs sample c' /\
  loading c' = true /\
  handleSubmit P c' = handleSubmit P sample.
Proof.
  intros P c'.
  assert (same_inputs sample c') as H by (repeat split).
  split; [exact H|]. split; [reflexivity|].
  exact (proj1 (resubmission_is_idempotent P sample) c' H).
Defined.

(** ** The form's constraints and the script's validation *)

Lemma within_spec (lo hi step v : Z) :
  step <> 0 ->
  within lo hi step v = true ->
  lo <= v <= hi /\ (step | v - lo).
Proof.
  intros Hs H. unfold within in H.
  apply andb_prop in H. destruct H as [H Hm].
  apply andb_prop in H. destruct H as [Hlo Hhi].
  apply Z.leb_le in Hlo. apply Z.leb_le in Hhi. apply Z.eqb_eq in Hm.
  split; [lia|]. now apply Z.mod_divide.
Qed.

(** X8.  Parameters that satisfy the [min], [max] and [step] attributes the
    numeric inputs declare always pass [validateDimensions]: the script's
    check never rejects what the form accepts.  The converse fails, since
    the script bounds nothing: it accepts every multiple of 32 as width and
    height and every [8k + 1] as frame count, zero and negative ones
    included. *)
Theorem form_constraints_imply_validation :
  (forall c, inputs_valid c = true -> validateDimensions c = Normal tt) /\
  (forall c k1 k2 k3,
     1 <= inferenceSteps c -> (0 <= guidanceScale c)%Q ->
     validateDimensions (edit_size (32 * k1) (32 * k2) (8 * k3 + 1) c)
     = Normal tt).
Proof.
  split.
  - intros c H. unfold inputs_valid in H.
    apply andb_prop in H. destruct H as [H Hn].
    apply andb_prop in H. destruct H as [H Hh].
    apply andb_prop in H. destruct H as [H Hw].
    apply andb_prop in H. destruct H as [Hs Hg].
    apply within_spec in Hs; [|lia].
    apply within_spec in Hw; [|lia].
    apply within_spec in Hh; [|lia].
    apply within_spec in Hn; [|lia].
    unfold within_Q in Hg.
    apply andb_prop in Hg. destruct Hg as [Hg _].
    apply andb_prop in Hg. destruct Hg as [Hg _].
    apply Qle_bool_iff in Hg.
    apply validateDimensions_Normal.
    destruct Hs as [? _], Hw as [_ [a Ha]], Hh as [_ [b Hb]],
      Hn as [Hrange [d Hd]].
    repeat split.
    + exists (a + 1). lia.
    + exists (b + 1). lia.
    + rewrite js_sub_exact by (unfold safe_integer; lia).
      exists (d + 1). lia.
    + lia.
    + exact Hg.
  - intros c k1 k2 k3 Hs Hg. apply validateDimensions_Normal.
    cbn [edit_size width height numFrames inferenceSteps guidanceScale].
    repeat split; try assumption.
    + exists k1. lia.
    + exists k2. lia.
    + apply js_sub_divide_8. exists k3. lia.
Qed.

Lemma form_constraints_imply_validation_witness :
  let c := edit_guidanceScale (3 # 10) (edit_size 1280 704 257 initial) in
  inputs_valid c = true /\
  validateDimensions c = Normal tt /\
  inputs_valid (edit_size 0 (-32) (-7) c) = false /\
  validateDimensions (edit_size (32 * 0) (32 * -1) (8 * -1 + 1) c) = Normal tt.
Proof.
  intros c.
  assert (inputs_valid c = true) as H by reflexivity.
  split; [exact H|].
  split; [exact (proj1 form_constraints_imply_validation c H)|].
  split; [reflexivity|].
  apply (proj2 form_constraints_imply_validation c 0 (-1) (-1));
    [simpl; lia | discriminate].
Defined.

(** ** What the template shows *)

Lemma validateDimensions_message (c : Component) (e : Thrown) :
  validateDimensions c = Throw e ->
  exists msg, e = ErrorObj msg /\ String.eqb msg "" = false.
Proof.
  unfold validateDimensions.
  repeat match goal with
         | |- context [if ?b then _ else _] => destruct b
         end;
    intros H; try discriminate; injection H as <-; eexists; split;
    reflexivity.
Qed.

(** X9.  A submission refused before the network is always visibly
    reported: after a validation failure or with the backend URL missing,
    the error block is shown with a non-empty message and the button is
    enabled again. *)
Theorem refusals_are_visible (P : Platform) (c : Component) :
  fails (validateDimensions c) \/ backend_missing P ->
  exists msg,
    error_block (render (settled P c)) = Some msg /\
    msg <> ""%string /\
    button_disabled (render (settled P c)) = false /\
    button_label (render (settled P c)) = "Generate Video"%string.
Proof.
  assert (invalid : forall e, validateDimensions c = Throw e ->
    exists msg,
      error_block (render (settled P c)) = Some msg /\
      msg <> ""%string /\
      button_disabled (render (settled P c)) = false /\
      button_label (render (settled P c)) = "Generate Video"%string).
  { intros e He.
    destruct (validateDimensions_message c e He) as (msg & -> & Hmsg).
    exists msg. unfold settled, trace.
    rewrite (handleSubmit_invalid P c _ He). simpl. rewrite Hmsg.
    repeat split. intros ->. discriminate. }
  intros [[e He] | Hb]; [now apply (invalid e)|].
  destruct (validateDimensions_total c) as [Hok | [msg Hmsg]];
    [|now apply (invalid (ErrorObj msg))].
  exists not_configured. unfold settled, trace.
  rewrite (handleSubmit_not_configured P c Hok Hb).
  repeat split. discriminate.
Qed.

Lemma refusals_are_visible_witness :
  let P := browser (Some "") (answering 200 video_body) in
  backend_missing P /\
  exists msg,
    error_block (render (settled P sample)) = Some msg /\
    msg <> ""%string /\
    button_disabled (render (settled P sample)) = false /\
    button_label (render (settled P sample)) = "Generate Video"%string.
Proof.
  intros P.
  assert (backend_missing P) as H by (right; reflexivity).
  split; [exact H|].
  exact (refusals_are_visible P sample (or_intror H)).
Defined.

(** X10.  An error response can leave the page without any error message:
    when the body of a non-success response is empty (and so is not JSON),
    or is an object whose [detail] is an empty array, the message the
    handler stores is the empty string, and the [{#if error}] block, which
    tests the message for truthiness, is not shown. *)
Theorem silent_error_responses (P : Platform) (c : Component) (u : string)
    (resp : Response) (text : string) :
  ready P c u ->
  fetch P (endpoint u) (request_init P c) = Normal resp ->
  ok resp = false ->
  body_text resp = Normal text ->
  (text = ""%string /\ exists e, JSON_parse P text = Throw e) \/
  (exists props, JSON_parse P text = Normal (VObj props) /\
                 lookup "detail" props = Some (VArr [])) ->
  error (settled P c) = Some ""%string /\
  error_block (render (settled P c)) = None /\
  result_block (render (settled P c)) = result_block (render c).
Proof.
  intros Hready Hf Hok Ht Hcase.
  assert (error (settled P c) = Some ""%string) as He.
  { rewrite (ready_error_response P c u resp text Hready Hf Hok Ht).
    unfold displayed_message.
    destruct Hcase as [(-> & e & ->) | (props & -> & Hd)]; [reflexivity|].
    simpl. rewrite Hd. reflexivity. }
  assert (result (settled P c) = result c) as Hr.
  { destruct (settled_outcome P c) as [(m & _ & Hr & _) | Hnone];
      [exact Hr | congruence]. }
  unfold render. simpl. rewrite He, Hr. repeat split.
Qed.

Lemma silent_error_responses_witness :
  let P := browser (Some gateway_url) (answering 502 "") in
  ready P sample gateway_url /\
  error (settled P sample) = Some ""%string /\
  error_block (render (settled P sample)) = None /\
  result_block (render (settled P sample)) = result_block (render sample).
Proof.
  intros P.
  assert (ready P sample gateway_url) as H
    by (repeat split; simpl; discriminate).
  split; [exact H|].
  apply (silent_error_responses P sample gateway_url
           {| status := 502; body_text := Normal ""%string |} ""%string H
           eq_refl eq_refl eq_refl).
  left. split; [reflexivity|].
  exists (ErrorObj "Unexpected token in JSON"). reflexivity.
Defined.

(** X11.  A successful response is shown only if its JSON value is truthy:
    the result block carries the parsed value when it is truthy, and when
    the gateway answers [null], [false], [0] or the empty string the page
    shows neither a result nor an error. *)
Theorem falsy_result_not_shown (P : Platform) (c : Component) (u : string)
    (resp : Response) (text : string) (v : value) :
  ready P c u ->
  fetch P (endpoint u) (request_init P c) = Normal resp ->
  ok resp = true ->
  body_text resp = Normal text ->
  JSON_parse P text = Normal v ->
  error_block (render (settled P c)) = None /\
  result_block (render (settled P c)) = (if truthy v then Some v else None) /\
  (v = VNull \/ v = VBool false \/ v = VNum 0 \/ v = VStr "" ->
   result_block (render (settled P c)) = None).
Proof.
  intros (Hv & Hb & Hu & Hr) Hf Hok Ht Hp. apply eqb_empty_false in Hu.
  assert (error (settled P c) = None /\ result (settled P c) = v) as [He Hres].
  { unfold settled, trace, handleSubmit, request_init, spec_payload,
      image_part, seed_part, readable, endpoint in *.
    rewrite Hv, Hb. simpl. rewrite Hu. simpl.
    ready_cases c; rewrite Hf; simpl; rewrite Hok, Ht; simpl; rewrite Hp;
      simpl; split; reflexivity. }
  unfold render. simpl. rewrite He, Hres.
  split; [reflexivity|]. split; [reflexivity|].
  intros [-> | [-> | [-> | ->]]]; reflexivity.
Qed.

Lemma falsy_result_not_shown_witness :
  let P := browser (Some gateway_url) (answering 200 "null") in
  ready P sample gateway_url /\
  error_block (render (settled P sample)) = None /\
  result_block (render (settled P sample)) = None.
Proof.
  intros P.
  assert (ready P sample gateway_url) as H
    by (repeat split; simpl; discriminate).
  split; [exact H|].
  destruct (falsy_result_not_shown P sample gateway_url
              {| status := 200; body_text := Normal "null"%string |}
              "null"%string VNull H eq_refl eq_refl eq_refl eq_refl)
    as (He & _ & Hr).
  split; [exact He|]. apply Hr. now left.
Defined.

(** ** Sessions *)

Lemma session_snoc (actions : list Action) (a : Action) (c : Component) :
  session (actions ++ [a]) c = act a (session actions c).
Proof. unfold session. rewrite fold_left_app. reflexivity. Qed.

(** A submission either leaves [result] alone or stores a value its trace
    assigns. *)
Lemma settled_result (P : Platform) (c : Component) :
  result (settled P c) = result c \/
  In (SetResult (result (settled P c))) (trace P c).
Proof.
  destruct (handleSubmit_settles P c) as (mid & Hrun & Hmid).
  destruct (settles_final mid Hmid) as (out & Hout & Hin & Hfinal).
  unfold settled, trace. rewrite Hrun. simpl fst.
  rewrite !run_cons, Hfinal.
  destruct Hout as [[m ->] | [r ->]]; [now left|].
  right. simpl. right. right. exact Hin.
Qed.

Lemma settled_loading (P : Platform) (c : Component) :
  loading (settled P c) = false.
Proof.
  destruct (handleSubmit_settles P c) as (mid & Hrun & Hmid).
  destruct (settles_final mid Hmid) as (out & Hout & _ & Hfinal).
  unfold settled, trace. rewrite Hrun. simpl fst.
  rewrite !run_cons, Hfinal. reflexivity.
Qed.

(** X12.  Through any sequence of edits, file choices and submissions,
    [imageFile] is the first file of the most recent non-empty choice (or
    what it was at the start): closing the dialog without a file, switching
    the input method and submitting never clear it, and of several files
    chosen at once only the first is kept.  So a file, once chosen, stays
    chosen. *)
Theorem chosen_file_is_kept (actions : list Action) (c : Component) :
  imageFile (session actions c) = last_choice actions (imageFile c) /\
  (imageFile c <> None -> imageFile (session actions c) <> None).
Proof.
  assert (H : imageFile (session actions c)
              = last_choice actions (imageFile c)).
  { induction actions as [|a actions IH] using rev_ind; [reflexivity|].
    rewrite session_snoc. unfold last_choice. rewrite fold_left_app.
    fold (last_choice actions (imageFile c)). rewrite <- IH.
    destruct a as [| | | | | | | | |files|P]; try reflexivity.
    - destruct files; reflexivity.
    - simpl. symmetry. apply (run_same_inputs (trace P _)). }
  split; [exact H|].
  rewrite H. clear H. generalize (imageFile c).
  induction actions as [|a actions IH]; intros o Ho; [exact Ho|].
  unfold last_choice in *. simpl. apply IH.
  destruct a as [| | | | | | | | |[|f files]|P]; try exact Ho. discriminate.
Qed.

Lemma chosen_file_is_kept_witness :
  let f := mkFile "cat.jpg" (Some "data:image/jpeg;base64,/9j/") in
  let g := mkFile "dog.jpg" None in
  let actions := [Choose_files [f; g]; Pick_inputMethod file;
                  Choose_files [];
                  Submit (browser (Some gateway_url) unreachable);
                  Pick_inputMethod url; Type_width 100] in
  imageFile (handleFileChange [g] sample) <> None /\
  imageFile (session actions (handleFileChange [g] sample)) = Some f /\
  imageFile (session actions (handleFileChange [g] sample)) <> None.
Proof.
  intros f g actions.
  assert (imageFile (handleFileChange [g] sample) <> None) as H
    by discriminate.
  split; [exact H|].
  destruct (chosen_file_is_kept actions (handleFileChange [g] sample))
    as [Heq Hkeep].
  split; [exact Heq | exact (Hkeep H)].
Defined.

(** X13.  After any sequence of edits, file choices and completed
    submissions that starts with [loading] false, [loading] is false, so
    the button is enabled whenever the user can act; and the stored
    [result] is either the one the session started with or a value that
    one of the session's submissions assigned from the gateway's answer. *)
Theorem session_invariant (actions : list Action) (c : Component) :
  loading c = false ->
  loading (session actions c) = false /\
  button_disabled (render (session actions c)) = false /\
  (result (session actions c) = result c \/
   exists pre P post,
     actions = pre ++ Submit P :: post /\
     In (SetResult (result (session actions c)))
        (trace P (session pre c))).
Proof.
  intros Hl.
  induction actions as [|a actions IH] using rev_ind.
  - split; [exact Hl|]. split; [exact Hl | now left].
  - destruct IH as (IHl & _ & IHr). rewrite session_snoc.
    assert (keep : loading (act a (session actions c))
                   = loading (session actions c) ->
                   result (act a (session actions c))
                   = result (session actions c) ->
      loading (act a (session actions c)) = false /\
      button_disabled (render (act a (session actions c))) = false /\
      (result (act a (session actions c)) = result c \/
       exists pre P post,
         actions ++ [a] = pre ++ Submit P :: post /\
         In (SetResult (result (act a (session actions c))))
            (trace P (session pre c)))).
    { intros El Er. unfold render. simpl. rewrite El, Er.
      split; [exact IHl|]. split; [exact IHl|].
      destruct IHr as [IHr | (pre & P & post & -> & Hin)]; [now left|].
      right. exists pre, P, (post ++ [a]).
      split; [|exact Hin]. rewrite <- app_assoc. reflexivity. }
    destruct a as [| | | | | | | | |files|P]; try (now apply keep).
    + apply keep; destruct files; reflexivity.
    + simpl act. split; [apply settled_loading|].
      split; [apply settled_loading|].
      destruct (settled_result P (session actions c)) as [Hr | Hin].
      * rewrite Hr.
        destruct IHr as [IHr | (pre & P' & post & -> & Hin)]; [now left|].
        right. exists pre, P', (post ++ [Submit P]).
        split; [|exact Hin]. rewrite <- app_assoc. reflexivity.
      * right. exists actions, P, []. split; [reflexivity | exact Hin].
Qed.

Lemma session_invariant_witness :
  let actions := [Type_prompt "a dog"; Type_width 100;
                  Submit (browser (Some gateway_url) (answering 200 "[1]"));
                  Type_width 128;
                  Submit (browser (Some gateway_url)
                            (answering 200 video_body));
                  Submit (browser (Some gateway_url) unreachable)] in
  loading sample = false /\
  loading (session actions sample) = false /\
  result (session actions sample) = VObj [("video_url", VStr "/v/1.mp4")] /\
  error (session actions sample) = Some "Failed to fetch"%string.
Proof.
  intros actions.
  assert (loading sample = false) as H by reflexivity.
  split; [exact H|].
  split; [exact (proj1 (session_invariant actions sample H))|].
  split; reflexivity.
Defined.
